(** * Salesforce release-note scraper: HTML tree to Markdown

  A shallow embedding of [scraper.py] and of the library calls it makes
  ([str] methods, [textwrap.dedent], the BeautifulSoup tree API), followed
  by the properties of the content locator, the inline and block renderers
  and the document assembler.

  Strings are [string]; a character is a code point below 256.  The input
  of the conversion is the tree the parser hands over (the [BeautifulSoup]
  object itself is the root tag, named "[document]"); fetching and parsing
  the markup are outside the model. *)

From Stdlib Require Import Ascii DecimalString.
From stdpp Require Import base option list strings gmap.

(** ** Python [str] methods *)

Module PyStr.

Definition nl : string := String "010"%char "".

(** [str.isspace] on one code point below 256: TAB..CR, FS..US, SPACE,
    NEL and NBSP. *)
Definition isspace (c : ascii) : bool :=
  let n := nat_of_ascii c in
  (Nat.leb 9 n && Nat.leb n 13) || (Nat.leb 28 n && Nat.leb n 32)
  || Nat.eqb n 133 || Nat.eqb n 160.

(** Truth value of a [str]: non-empty. *)
Definition nonempty (s : string) : bool :=
  match s with EmptyString => false | String _ _ => true end.

Fixpoint lstrip (s : string) : string :=
  match s with
  | EmptyString => EmptyString
  | String c s' => if isspace c then lstrip s' else s
  end.

Fixpoint rstrip (s : string) : string :=
  match s with
  | EmptyString => EmptyString
  | String c s' =>
      match rstrip s' with
      | EmptyString => if isspace c then EmptyString else String c EmptyString
      | r => String c r
      end
  end.

Definition strip (s : string) : string := rstrip (lstrip s).

(** [sep.join(parts)] *)
Fixpoint join (sep : string) (parts : list string) : string :=
  match parts with
  | [] => ""
  | [x] => x
  | x :: rest => x +:+ sep +:+ join sep rest
  end.

(** [s * n] *)
Fixpoint repeat (s : string) (n : nat) : string :=
  match n with
  | O => ""
  | S n' => s +:+ repeat s n'
  end.

(** [s.split(sep)] for a one-character separator. *)
Fixpoint split (sep : ascii) (s : string) : list string :=
  match s with
  | EmptyString => [""]
  | String c s' =>
      if Ascii.eqb c sep then "" :: split sep s'
      else match split sep s' with
           | [] => [String c ""]
           | l :: ls => String c l :: ls
           end
  end.

(** [s.startswith(p)] and the removal of a prefix known to be there. *)
Fixpoint startswith (s p : string) : bool :=
  match p, s with
  | EmptyString, _ => true
  | String a p', String b s' => Ascii.eqb a b && startswith s' p'
  | String _ _, EmptyString => false
  end.

Fixpoint drop (n : nat) (s : string) : string :=
  match n, s with
  | O, _ => s
  | S n', String _ s' => drop n' s'
  | S _, EmptyString => EmptyString
  end.

(** [str(n)] for a non-negative integer. *)
Definition of_nat (n : nat) : string :=
  NilEmpty.string_of_uint (Nat.to_uint n).

(** [int(c)] for a decimal digit. *)
Definition int_of_digit (c : ascii) : nat := nat_of_ascii c - 48.

(** [s[1]] *)
Definition second (s : string) : ascii :=
  match s with
  | String _ (String c _) => c
  | _ => "000"%char
  end.

(** [s in names] *)
Definition mem (s : string) (names : list string) : bool :=
  existsb (String.eqb s) names.

End PyStr.

(** ** [textwrap.dedent]

  The regular expressions of the library only look at one line at a time,
  so the model works on the lines of the text: a line made of blanks and
  tabs only is emptied, the margin is the longest common prefix of the
  leading blank/tab runs of the remaining non-empty lines, and the margin
  is removed from every line that starts with it. *)

Module Textwrap.
Import PyStr.

Definition blank (c : ascii) : bool :=
  Ascii.eqb c " "%char || Ascii.eqb c "009"%char.

Fixpoint all_blank (s : string) : bool :=
  match s with
  | EmptyString => true
  | String c s' => blank c && all_blank s'
  end.

(** [_whitespace_only_re.sub('', text)], on one line *)
Definition clear_blank_line (l : string) : string :=
  if all_blank l then "" else l.

(** group 1 of [_leading_whitespace_re] on one line, if the line matches *)
Fixpoint leading_blanks (l : string) : option string :=
  match l with
  | EmptyString => None
  | String c l' =>
      if blank c then String c <$> leading_blanks l'
      else Some ""
  end.

Fixpoint common_prefix (a b : string) : string :=
  match a, b with
  | String x a', String y b' =>
      if Ascii.eqb x y then String x (common_prefix a' b') else ""
  | _, _ => ""
  end.

(** the loop over [indents] *)
Definition margin_step (margin : option string) (indent : string)
  : option string :=
  match margin with
  | None => Some indent
  | Some m =>
      if startswith indent m then Some m
      else if startswith m indent then Some indent
      else Some (common_prefix m indent)
  end.

Definition remove_margin (m l : string) : string :=
  if startswith l m then drop (String.length m) l else l.

Definition dedent (text : string) : string :=
  let lines := clear_blank_line <$> split "010"%char text in
  let indents := omap leading_blanks lines in
  match foldl margin_step None indents with
  | Some (String c m) => join nl (remove_margin (String c m) <$> lines)
  | _ => join nl lines
  end.

End Textwrap.

(** ** The BeautifulSoup tree *)

Module Bs4.
Import PyStr.

(** A page element is a text node or a tag with its name, its attribute
    dictionary and its ordered children. *)
#[warnings="-register-all"] Inductive PageElement : Type :=
| NavigableString (s : string)
| Tag (name : string) (attrs : gmap string string)
      (contents : list PageElement).

Definition isTag (e : PageElement) : bool :=
  match e with Tag _ _ _ => true | NavigableString _ => false end.

Definition name (e : PageElement) : string :=
  match e with Tag n _ _ => n | NavigableString _ => "" end.

(** [tag.children] *)
Definition children (e : PageElement) : list PageElement :=
  match e with Tag _ _ cs => cs | NavigableString _ => [] end.

(** [tag.get(key, default)] *)
Definition get (e : PageElement) (key default : string) : string :=
  match e with
  | Tag _ attrs _ => match attrs !! key with Some v => v | None => default end
  | NavigableString _ => default
  end.

(** [tag.descendants]: every node below the tag, in document order. *)
Fixpoint descendants (e : PageElement) : list PageElement :=
  match e with
  | NavigableString _ => []
  | Tag _ _ cs => flat_map (fun c => c :: descendants c) cs
  end.

(** What [find] and [find_all] are asked to match: a tag whose name is one
    of [names] and whose attributes have the given values. *)
Record SoupStrainer : Type := Strainer {
  names : list string;
  wanted : list (string * string)
}.

Definition search_tag (st : SoupStrainer) (e : PageElement) : bool :=
  match e with
  | NavigableString _ => false
  | Tag n attrs _ =>
      mem n (names st)
      && forallb (fun kv => match attrs !! kv.1 with
                            | Some v => String.eqb v kv.2
                            | None => false
                            end) (wanted st)
  end.

(** [tag.find_all(..., recursive=...)] *)
Definition find_all (st : SoupStrainer) (recursive : bool)
    (e : PageElement) : list PageElement :=
  List.filter (search_tag st) (if recursive then descendants e else children e).

(** [tag.find(...)]: the first result of [find_all], or [None]. *)
Definition find (st : SoupStrainer) (e : PageElement) : option PageElement :=
  head (find_all st true e).

(** [bool(tag)]: the library defines [Tag.__bool__] to answer [True]
    whatever the contents. *)
Definition Tag_bool (e : PageElement) : bool := true.

(** [tag._all_strings(strip)] *)
Definition all_strings (strip_each : bool) (e : PageElement) : list string :=
  omap (fun d => match d with
                 | Tag _ _ _ => None
                 | NavigableString s =>
                     if strip_each
                     then (let s' := strip s in
                           if nonempty s' then Some s' else None)
                     else Some s
                 end) (descendants e).

(** [tag.get_text(separator, strip)] *)
Definition get_text (separator : string) (strip_each : bool)
    (e : PageElement) : string :=
  join separator (all_strings strip_each e).

End Bs4.

(** ** The scraper *)

Module Scraper.
Import PyStr Bs4.

Inductive exn : Type := ValueError (msg : string).

(** A call either returns a value or raises. *)
Inductive result (A : Type) : Type :=
| Return (a : A)
| Raise (e : exn).
Arguments Return {A} a.
Arguments Raise {A} e.

Definition not_found : exn :=
  ValueError "Could not find a content container in the provided HTML".

(** *** Content locator *)

Definition candidates (soup : PageElement) : list (option PageElement) :=
  [ find (Strainer ["article"] []) soup;
    find (Strainer ["main"] []) soup;
    find (Strainer ["div"] [("id", "content")]) soup;
    find (Strainer ["body"] []) soup ].

(** [for candidate in candidates: if candidate: return candidate], then the
    [raise]. *)
Fixpoint first_truthy (cs : list (option PageElement)) : result PageElement :=
  match cs with
  | [] => Raise not_found
  | candidate :: rest =>
      match candidate with
      | Some tag => if Tag_bool tag then Return tag else first_truthy rest
      | None => first_truthy rest
      end
  end.

Definition extract_main_content (soup : PageElement) : result PageElement :=
  first_truthy (candidates soup).

(** *** Inline renderer *)

Fixpoint inline_to_markdown (node : PageElement) : string :=
  match node with
  | NavigableString s => s
  | Tag name _ contents =>
      let inner := join "" (List.map inline_to_markdown contents) in
      if String.eqb name "strong" || String.eqb name "b" then
        "**" +:+ inner +:+ "**"
      else if String.eqb name "em" || String.eqb name "i" then
        "*" +:+ inner +:+ "*"
      else if String.eqb name "code" then
        "`" +:+ get_text "" true node +:+ "`"
      else if String.eqb name "a" then
        let href := strip (get node "href" "") in
        let text := strip inner in
        let text := if nonempty text then text
                    else if nonempty href then href else "link" in
        if nonempty href then "[" +:+ text +:+ "](" +:+ href +:+ ")" else text
      else if String.eqb name "br" then nl
      else inner
  end.

(** *** Block renderer *)

Definition headings : list string := ["h1"; "h2"; "h3"; "h4"; "h5"; "h6"].
Definition list_tags : list string := ["ul"; "ol"].

(** [filter(None, lines)] *)
Definition filter_nonempty (lines : list string) : list string :=
  List.filter nonempty lines.

Section ListItems.

(** [nested_list child] stands for
    [block_to_markdown(child, indent_level + 1)]. *)
Variable nested_list : PageElement -> string.
Variable indent : string.
Variable is_ordered : bool.

(** What one child of an [li] appends to [content_parts]. *)
Definition content_part (child : PageElement) : list string :=
  match child with
  | NavigableString s => [s]
  | Tag cname _ _ =>
      if mem cname list_tags then
        let nested := nested_list child in
        if nonempty nested then [nl +:+ nested] else []
      else [inline_to_markdown child]
  end.

Definition bullet (idx : nat) : string :=
  if is_ordered then of_nat idx +:+ ". " else "- ".

Definition item_line (idx : nat) (li_children : list PageElement) : string :=
  indent +:+ bullet idx +:+ strip (join "" (flat_map content_part li_children)).

(** The loop over [enumerate(node.find_all("li", recursive=False), start=1)],
    written over the children of the list so that the recursion stays
    structural: a child that is not an [li] tag is passed over and does
    not count. *)
Fixpoint item_lines (idx : nat) (contents : list PageElement) : list string :=
  match contents with
  | [] => []
  | NavigableString _ :: rest => item_lines idx rest
  | Tag n _ li_children :: rest =>
      if mem n ["li"] then item_line idx li_children :: item_lines (S idx) rest
      else item_lines idx rest
  end.

End ListItems.

Definition table_lines (node : PageElement) : list string :=
  let rows := find_all (Strainer ["tr"] []) true node in
  let table_data :=
    List.map (fun row =>
                List.map (fun th => strip (inline_to_markdown th))
                         (find_all (Strainer ["th"; "td"] []) true row))
             rows in
  match table_data with
  | [] => []
  | header :: others =>
      let separator := List.map (fun _ => "---") header in
      [join " | " header; join " | " separator]
      ++ List.map (join " | ") others ++ [""]
  end.

Fixpoint block_to_markdown (node : PageElement) (indent_level : nat) : string :=
  match node with
  | NavigableString _ => ""
  | Tag name _ contents =>
      let indent := repeat "    " indent_level in
      let lines :=
        if mem name headings then
          let level := int_of_digit (second name) in
          let prefix := repeat "#" level in
          [prefix +:+ " " +:+ strip (inline_to_markdown node) +:+ nl]
        else if String.eqb name "p" then
          let text := strip (inline_to_markdown node) in
          if nonempty text then [text +:+ nl] else []
        else if mem name list_tags then
          let is_ordered := String.eqb name "ol" in
          item_lines (fun child => block_to_markdown child (S indent_level))
                     indent is_ordered 1 contents
          ++ [""]
        else if String.eqb name "table" then
          table_lines node
        else if String.eqb name "pre" then
          let code_text := rstrip (get_text nl false node) in
          if nonempty code_text then ["```" +:+ nl +:+ code_text +:+ nl +:+ "```" +:+ nl]
          else []
        else
          flat_map (fun child =>
                      match child with
                      | Tag _ _ _ => [block_to_markdown child indent_level]
                      | NavigableString s =>
                          let text := strip s in
                          if nonempty text then [indent +:+ text +:+ nl] else []
                      end) contents
      in
      join nl (filter_nonempty lines)
  end.

(** *** Document assembler *)

Definition top_blocks (content : PageElement) : list string :=
  flat_map (fun child =>
              match child with
              | Tag _ _ _ =>
                  let md := block_to_markdown child 0 in
                  if nonempty md then [md] else []
              | NavigableString _ => []
              end) (children content).

Definition html_to_markdown (soup : PageElement) : result string :=
  match extract_main_content soup with
  | Raise e => Raise e
  | Return content =>
      let markdown := join nl (top_blocks content) in
      Return (strip (Textwrap.dedent markdown) +:+ nl)
  end.

End Scraper.

(** ** Vocabulary of the properties *)

Import PyStr Bs4 Scraper.

(** The last character of a string, if it has one. *)
Fixpoint last_char (s : string) : option ascii :=
  match s with
  | EmptyString => None
  | String c s' =>
      match last_char s' with
      | None => Some c
      | Some d => Some d
      end
  end.

Definition ends_with_newline (s : string) : bool :=
  match last_char s with
  | Some c => Ascii.eqb c "010"%char
  | None => false
  end.

(** A tag with the given name. *)
Definition named (n : string) (e : PageElement) : bool :=
  match e with
  | Tag m _ _ => String.eqb m n
  | NavigableString _ => false
  end.

(** A tag, of whatever name, whose [id] attribute is [v]. *)
Definition has_id (v : string) (e : PageElement) : bool :=
  match e with
  | Tag _ attrs _ => bool_decide (attrs !! "id" = Some v)
  | NavigableString _ => false
  end.

Definition div_content (e : PageElement) : bool :=
  named "div" e && has_id "content" e.

(** Some node below [soup] satisfies [p]. *)
Definition present (p : PageElement -> bool) (soup : PageElement) : bool :=
  existsb p (descendants soup).

(** [c] is the first node below [soup], in document order, that satisfies
    [p]. *)
Definition first_in_document (p : PageElement -> bool)
    (soup c : PageElement) : Prop :=
  exists pre post,
    descendants soup = pre ++ c :: post
    /\ p c = true
    /\ forallb (fun x => negb (p x)) pre = true.

(** The four kinds of container the locator looks for. *)
Definition candidate (e : PageElement) : bool :=
  named "article" e || named "main" e || div_content e || named "body" e.

(** The same with the third kind widened to a tag of any name whose [id]
    is "content". *)
Definition candidate_any_tag (e : PageElement) : bool :=
  named "article" e || named "main" e || has_id "content" e || named "body" e.

(** What [html_to_markdown] makes of the chosen container. *)
Definition assemble (content : PageElement) : string :=
  strip (Textwrap.dedent (join nl (top_blocks content))) +:+ nl.

(** The text runs below a node, in document order. *)
Fixpoint texts (e : PageElement) : list string :=
  match e with
  | NavigableString s => [s]
  | Tag _ _ cs => flat_map texts cs
  end.

(** A locator that passes over a candidate without children: the first of
    the four candidates that exists and has at least one child.  It is
    only compared with [extract_main_content]. *)
Fixpoint first_with_children (cs : list (option PageElement))
  : result PageElement :=
  match cs with
  | [] => Raise not_found
  | Some tag :: rest =>
      if bool_decide (children tag = []) then first_with_children rest
      else Return tag
  | None :: rest => first_with_children rest
  end.

Definition locate_skipping_childless (soup : PageElement)
  : result PageElement :=
  first_with_children (candidates soup).

(** The four searches of the locator. *)
Definition find_article := find (Strainer ["article"] []).
Definition find_main := find (Strainer ["main"] []).
Definition find_div_content := find (Strainer ["div"] [("id", "content")]).
Definition find_body := find (Strainer ["body"] []).

(** The text runs found by walking [descendants]. *)
Definition strings_below (e : PageElement) : list string :=
  omap (fun d => match d with
                 | NavigableString s => Some s
                 | Tag _ _ _ => None
                 end) (descendants e).

(** Small trees used as examples. *)
Definition text (s : string) : PageElement := NavigableString s.
Definition el (n : string) (cs : list PageElement) : PageElement := Tag n ∅ cs.
Definition document (cs : list PageElement) : PageElement :=
  Tag "[document]" ∅ cs.

Definition ul_A : PageElement := el "ul" [el "li" [text "A"]].
Definition p_B : PageElement := el "p" [text "B"].
Definition nested_AB : PageElement :=
  el "ul" [el "li" [text "A"; el "ul" [el "li" [text "B"]]]].
Definition table_AB : PageElement :=
  el "table" [el "tr" [el "th" [text "A"]; el "th" [text "B"]];
              el "tr" [el "td" [text "1"]; el "td" [text "2"]]].
Definition div_id_content (cs : list PageElement) : PageElement :=
  Tag "div" {["id" := "content"]} cs.
Definition section_id_content : PageElement :=
  Tag "section" {["id" := "content"]} [text "x"].
Definition all_four : PageElement :=
  document [el "body" [el "main" [text "m"]; div_id_content [text "d"];
                       el "article" [el "p" [text "x"]];
                       el "article" [text "y"]]].

(** The first node below [soup] that satisfies [p], if any. *)
Definition first_below (p : PageElement -> bool) (soup : PageElement)
  : option PageElement :=
  head (List.filter p (descendants soup)).

(** A locator with the same fixed order and the third candidate widened
    to the first tag of any name whose [id] is "content".  It is only
    compared with [extract_main_content]. *)
Definition locate_any_tag_third (soup : PageElement) : result PageElement :=
  first_truthy
    [ first_below (named "article") soup;
      first_below (named "main") soup;
      first_below (has_id "content") soup;
      first_below (named "body") soup ].

Definition two_level_list : PageElement :=
  el "ol" [el "li" [text "A"; el "ul" [el "li" [text "B"];
                                        el "li" [text "C"]]];
           el "li" [text "D"]].

(** *** Further vocabulary *)

Definition first_char (s : string) : option ascii :=
  match s with
  | EmptyString => None
  | String c _ => Some c
  end.

(** A string made of white space only (the empty string included). *)
Fixpoint all_space (s : string) : bool :=
  match s with
  | EmptyString => true
  | String c s' => isspace c && all_space s'
  end.

(** The tag names for which [inline_to_markdown] has a branch of its
    own. *)
Definition inline_markup : list string :=
  ["strong"; "b"; "em"; "i"; "code"; "a"; "br"].

(** No tag of the subtree has a branch of its own in the inline
    renderer. *)
Fixpoint plain (e : PageElement) : bool :=
  match e with
  | NavigableString _ => true
  | Tag n _ cs => negb (mem n inline_markup) && forallb plain cs
  end.

(** A tag name that reaches the last branch of [block_to_markdown]. *)
Definition generic (n : string) : bool :=
  negb (mem n headings) && negb (String.eqb n "p")
  && negb (mem n list_tags) && negb (String.eqb n "table")
  && negb (String.eqb n "pre").

(** A text node that is empty once stripped. *)
Definition blank_text (e : PageElement) : bool :=
  match e with
  | NavigableString s => negb (nonempty (strip s))
  | Tag _ _ _ => false
  end.

(** The cells of a table row, as [table_lines] collects them. *)
Definition row_cells (row : PageElement) : list string :=
  List.map (fun th => strip (inline_to_markdown th))
    (find_all (Strainer ["th"; "td"] []) true row).

(** The same tree with every attribute removed, except the [href] of an
    "a" tag. *)
Fixpoint keep_href (e : PageElement) : PageElement :=
  match e with
  | NavigableString s => NavigableString s
  | Tag n attrs cs =>
      Tag n (if String.eqb n "a"
             then match attrs !! "href" with
                  | Some v => {["href" := v]}
                  | None => ∅
                  end
             else ∅)
          (List.map keep_href cs)
  end.

(** Nesting depth of a tree. *)
Fixpoint depth (e : PageElement) : nat :=
  match e with
  | NavigableString _ => 0
  | Tag _ _ cs => S (list_max (List.map depth cs))
  end.

(** What one child of a generic container appends to [lines]. *)
Definition container_part (indent_level : nat) (child : PageElement)
  : list string :=
  match child with
  | Tag _ _ _ => [block_to_markdown child indent_level]
  | NavigableString s =>
      let text := strip s in
      if nonempty text then [repeat "    " indent_level +:+ text +:+ nl]
      else []
  end.

(** The line of one list item at a given level, as the list branch of
    [block_to_markdown] builds it. *)
Definition list_item_line (indent_level : nat) (is_ordered : bool)
    (idx : nat) (li : PageElement) : string :=
  repeat "    " indent_level +:+ bullet is_ordered idx
  +:+ strip (join ""
               (flat_map
                  (content_part
                     (fun child => block_to_markdown child (S indent_level)))
                  (children li))).

(** ** Strings *)

Section StringFacts.

Lemma str_app_nil_l (s : string) : "" +:+ s = s.
Proof. reflexivity. Qed.

Lemma str_app_cons (c : ascii) (s t : string) :
  String c s +:+ t = String c (s +:+ t).
Proof. reflexivity. Qed.

Lemma str_app_nil_r (s : string) : s +:+ "" = s.
Proof. induction s as [|c s IH]; [reflexivity|]. by rewrite str_app_cons, IH. Qed.

Lemma app_assoc_str (a b c : string) : (a +:+ b) +:+ c = a +:+ b +:+ c.
Proof.
  induction a as [|x a IH]; [reflexivity|]. by rewrite !str_app_cons, IH.
Qed.

Lemma nonempty_app_r (a b : string) :
  nonempty b = true -> nonempty (a +:+ b) = true.
Proof. destruct a; [by rewrite str_app_nil_l | by rewrite str_app_cons]. Qed.

Lemma nonempty_false (s : string) : nonempty s = false -> s = "".
Proof. by destruct s. Qed.

Lemma last_char_None (s : string) : last_char s = None -> s = "".
Proof.
  destruct s as [|c s]; [done|]. simpl. by destruct (last_char s).
Qed.

Lemma last_char_app (a b : string) :
  last_char (a +:+ b)
  = match last_char b with Some c => Some c | None => last_char a end.
Proof.
  induction a as [|x a IH].
  - rewrite str_app_nil_l. by destruct (last_char b).
  - rewrite str_app_cons. simpl. rewrite IH.
    destruct (last_char b); [done|]. by destruct (last_char a).
Qed.

(** What [rstrip] leaves does not end in white space. *)
Lemma rstrip_last (s : string) (c : ascii) :
  last_char (rstrip s) = Some c -> isspace c = false.
Proof.
  revert c. induction s as [|x s IH]; intros c; [done|].
  simpl. destruct (rstrip s) as [|y r] eqn:E.
  - destruct (isspace x) eqn:Hx; [done|]. simpl. congruence.
  - change (last_char (String x (String y r)))
      with (match last_char (String y r) with
            | None => Some x | Some d => Some d end).
    destruct (last_char (String y r)) as [d|] eqn:L.
    + intros [= <-]. by apply IH.
    + by apply last_char_None in L.
Qed.

Lemma strip_last (s : string) (c : ascii) :
  last_char (strip s) = Some c -> isspace c = false.
Proof. apply rstrip_last. Qed.

(** [rstrip] leaves alone a string that ends in something else than white
    space. *)
Lemma rstrip_id (s : string) (c : ascii) :
  last_char s = Some c -> isspace c = false -> rstrip s = s.
Proof.
  induction s as [|x s IH]; [done|].
  simpl. destruct (last_char s) as [d|] eqn:L.
  - intros [= ->] Hc. rewrite IH by done.
    destruct s; [done|reflexivity].
  - intros [= ->] Hc. apply last_char_None in L as ->. simpl. by rewrite Hc.
Qed.

Lemma newline_isspace : isspace "010"%char = true.
Proof. reflexivity. Qed.

Lemma not_space_not_newline (c : ascii) :
  isspace c = false -> Ascii.eqb c "010"%char = false.
Proof.
  intros H. destruct (Ascii.eqb c "010"%char) eqn:E; [|done].
  apply Ascii.eqb_eq in E as ->. by rewrite newline_isspace in H.
Qed.

(** A line built as [prefix + strip(content)], where the prefix is not
    empty and does not end in a newline, does not end in a newline. *)
Lemma prefixed_strip_no_newline (prefix content : string) (p : ascii) :
  last_char prefix = Some p -> Ascii.eqb p "010"%char = false ->
  ends_with_newline (prefix +:+ strip content) = false.
Proof.
  intros Hp Hn. unfold ends_with_newline. rewrite last_char_app.
  destruct (last_char (strip content)) as [c|] eqn:L.
  - apply not_space_not_newline. by eapply strip_last.
  - by rewrite Hp.
Qed.

Lemma join_cons2 (sep x y : string) (rest : list string) :
  join sep (x :: y :: rest) = x +:+ sep +:+ join sep (y :: rest).
Proof. reflexivity. Qed.

Lemma join_nonempty (sep : string) (x : string) (rest : list string) :
  nonempty x = true -> nonempty (join sep (x :: rest)) = true.
Proof.
  intros Hx. destruct rest as [|y rest]; [done|].
  rewrite join_cons2. by destruct x.
Qed.

(** Joining non-empty lines, none of which ends in a newline, gives a
    text that does not end in a newline. *)
Lemma join_no_trailing_newline (lines : list string) :
  Forall (fun l => nonempty l = true /\ ends_with_newline l = false) lines ->
  ends_with_newline (join nl lines) = false.
Proof.
  induction 1 as [|x rest [Hx Hn] Hrest IH]; [done|].
  destruct rest as [|y rest]; [done|].
  rewrite join_cons2. unfold ends_with_newline in *.
  rewrite !last_char_app.
  destruct (last_char (join nl (y :: rest))) as [c|] eqn:L; [done|].
  apply last_char_None in L.
  apply Forall_cons in Hrest as [[Hy _] _].
  apply (join_nonempty nl) with (rest := rest) in Hy. by rewrite L in Hy.
Qed.

Lemma filter_nonempty_app (a b : list string) :
  filter_nonempty (a ++ b) = filter_nonempty a ++ filter_nonempty b.
Proof. apply List.filter_app. Qed.

Lemma filter_nonempty_id (lines : list string) :
  Forall (fun l => nonempty l = true) lines -> filter_nonempty lines = lines.
Proof.
  induction 1 as [|x rest Hx _ IH]; [done|].
  unfold filter_nonempty in *. simpl. by rewrite Hx, IH.
Qed.

End StringFacts.

(** ** Searching the tree *)

Section Search.

Lemma head_filter_Some {A} (p : A -> bool) (l : list A) (c : A) :
  head (List.filter p l) = Some c
  <-> exists pre post,
        l = pre ++ c :: post /\ p c = true
        /\ forallb (fun x => negb (p x)) pre = true.
Proof.
  induction l as [|x l IH]; simpl.
  - split; [done|]. intros (pre & post & E & _). by destruct pre.
  - destruct (p x) eqn:Hx; simpl.
    + split.
      * intros [= ->]. by exists [], l.
      * intros (pre & post & E & Hc & Hpre). destruct pre as [|y pre].
        -- by injection E as -> _.
        -- injection E as -> _. simpl in Hpre. by rewrite Hx in Hpre.
    + rewrite IH. split.
      * intros (pre & post & -> & Hc & Hpre). exists (x :: pre), post.
        simpl. by rewrite Hx.
      * intros (pre & post & E & Hc & Hpre). destruct pre as [|y pre].
        -- injection E as -> _. congruence.
        -- injection E as -> ->. exists pre, post.
           simpl in Hpre. apply andb_true_iff in Hpre as [_ Hpre]. done.
Qed.

Lemma head_filter_None {A} (p : A -> bool) (l : list A) :
  head (List.filter p l) = None <-> existsb p l = false.
Proof.
  induction l as [|x l IH]; simpl; [done|].
  destruct (p x); simpl; [split; discriminate | exact IH].
Qed.

Lemma filter_ext_bool {A} (p q : A -> bool) (l : list A) :
  (forall x, p x = q x) -> List.filter p l = List.filter q l.
Proof. intros H. apply List.filter_ext. exact H. Qed.

Lemma search_tag_named (n : string) (e : PageElement) :
  search_tag (Strainer [n] []) e = named n e.
Proof.
  destruct e as [s|m attrs cs]; [done|].
  unfold search_tag, mem. simpl. by rewrite orb_false_r, andb_true_r.
Qed.

Lemma search_tag_div_content (e : PageElement) :
  search_tag (Strainer ["div"] [("id", "content")]) e = div_content e.
Proof.
  destruct e as [s|m attrs cs]; [done|].
  unfold search_tag, div_content, mem, has_id. simpl.
  rewrite orb_false_r, andb_true_r. f_equal.
  destruct (attrs !! "id") as [v|] eqn:E.
  - destruct (String.eqb_spec v "content") as [->|Hne].
    + by rewrite bool_decide_eq_true_2.
    + rewrite bool_decide_eq_false_2; [done|]. congruence.
  - by rewrite bool_decide_eq_false_2.
Qed.

(** [find] returns the first node of the document that the strainer
    accepts, and [None] exactly when there is none. *)
Lemma find_first (st : SoupStrainer) (p : PageElement -> bool) :
  (forall e, search_tag st e = p e) ->
  forall soup c, find st soup = Some c <-> first_in_document p soup c.
Proof.
  intros H soup c. unfold find, find_all, first_in_document.
  rewrite (filter_ext_bool _ p _ H). apply head_filter_Some.
Qed.

Lemma find_absent (st : SoupStrainer) (p : PageElement -> bool) :
  (forall e, search_tag st e = p e) ->
  forall soup, find st soup = None <-> present p soup = false.
Proof.
  intros H soup. unfold find, find_all, present.
  rewrite (filter_ext_bool _ p _ H). apply head_filter_None.
Qed.

Lemma first_in_document_present (p : PageElement -> bool)
    (soup c : PageElement) :
  first_in_document p soup c -> present p soup = true.
Proof.
  intros (pre & post & E & Hc & _). unfold present. rewrite E.
  rewrite existsb_app. simpl. rewrite Hc. by rewrite orb_true_r.
Qed.

Lemma present_first (p : PageElement -> bool) (soup : PageElement) :
  present p soup = true -> exists c, first_in_document p soup c.
Proof.
  intros H. destruct (head (List.filter p (descendants soup))) as [c|] eqn:E.
  - exists c. by apply head_filter_Some.
  - apply head_filter_None in E. unfold present in H. congruence.
Qed.

Lemma first_in_document_unique (p : PageElement -> bool)
    (soup c d : PageElement) :
  first_in_document p soup c -> first_in_document p soup d -> c = d.
Proof.
  intros Hc Hd. apply head_filter_Some in Hc, Hd. congruence.
Qed.

Lemma extract_main_content_cases (soup : PageElement) :
  extract_main_content soup
  = match find_article soup, find_main soup,
          find_div_content soup, find_body soup with
    | Some a, _, _, _ => Return a
    | None, Some m, _, _ => Return m
    | None, None, Some d, _ => Return d
    | None, None, None, Some b => Return b
    | None, None, None, None => Raise not_found
    end.
Proof.
  unfold extract_main_content, candidates, find_article, find_main,
    find_div_content, find_body. simpl.
  repeat match goal with |- context [find ?st soup] =>
    destruct (find st soup) end; reflexivity.
Qed.

End Search.

(** ** Content locator *)

Section Locator.

Lemma find_article_first (soup c : PageElement) :
  find_article soup = Some c <-> first_in_document (named "article") soup c.
Proof. apply find_first, search_tag_named. Qed.

Lemma find_main_first (soup c : PageElement) :
  find_main soup = Some c <-> first_in_document (named "main") soup c.
Proof. apply find_first, search_tag_named. Qed.

Lemma find_div_content_first (soup c : PageElement) :
  find_div_content soup = Some c <-> first_in_document div_content soup c.
Proof. apply find_first, search_tag_div_content. Qed.

Lemma find_body_first (soup c : PageElement) :
  find_body soup = Some c <-> first_in_document (named "body") soup c.
Proof. apply find_first, search_tag_named. Qed.

Lemma find_article_absent (soup : PageElement) :
  find_article soup = None <-> present (named "article") soup = false.
Proof. apply find_absent, search_tag_named. Qed.

Lemma find_main_absent (soup : PageElement) :
  find_main soup = None <-> present (named "main") soup = false.
Proof. apply find_absent, search_tag_named. Qed.

Lemma find_div_content_absent (soup : PageElement) :
  find_div_content soup = None <-> present div_content soup = false.
Proof. apply find_absent, search_tag_div_content. Qed.

Lemma find_body_absent (soup : PageElement) :
  find_body soup = None <-> present (named "body") soup = false.
Proof. apply find_absent, search_tag_named. Qed.

Lemma existsb_orb {A} (p q : A -> bool) (l : list A) :
  existsb (fun x => p x || q x) l = existsb p l || existsb q l.
Proof.
  induction l as [|x l IH]; [done|]. simpl. rewrite IH.
  destruct (p x), (q x), (existsb p l), (existsb q l); reflexivity.
Qed.

Lemma present_candidate (soup : PageElement) :
  present candidate soup
  = present (named "article") soup || present (named "main") soup
    || present div_content soup || present (named "body") soup.
Proof. unfold present, candidate. by rewrite !existsb_orb. Qed.

(** Whether a search finds something is whether something is there. *)
Lemma present_false_find (st : SoupStrainer) (p : PageElement -> bool)
    (soup : PageElement) :
  (forall e, search_tag st e = p e) ->
  present p soup = match find st soup with Some _ => true | None => false end.
Proof.
  intros H. destruct (find st soup) as [c|] eqn:E.
  - eapply first_in_document_present. by apply (find_first st p H).
  - by apply (find_absent st p H).
Qed.

Lemma present_candidate_finds (soup : PageElement) :
  present candidate soup
  = match find_article soup, find_main soup,
          find_div_content soup, find_body soup with
    | None, None, None, None => false
    | _, _, _, _ => true
    end.
Proof.
  rewrite present_candidate.
  rewrite (present_false_find (Strainer ["article"] []) (named "article"))
    by apply search_tag_named.
  rewrite (present_false_find (Strainer ["main"] []) (named "main"))
    by apply search_tag_named.
  rewrite (present_false_find (Strainer ["div"] [("id", "content")]) div_content)
    by apply search_tag_div_content.
  rewrite (present_false_find (Strainer ["body"] []) (named "body"))
    by apply search_tag_named.
  fold (find_article soup) (find_main soup) (find_div_content soup)
    (find_body soup).
  destruct (find_article soup), (find_main soup), (find_div_content soup),
    (find_body soup); reflexivity.
Qed.

Lemma html_to_markdown_Return (soup c : PageElement) :
  extract_main_content soup = Return c ->
  html_to_markdown soup = Return (assemble c).
Proof. intros H. unfold html_to_markdown. by rewrite H. Qed.

Lemma html_to_markdown_Raise (soup : PageElement) (e : exn) :
  extract_main_content soup = Raise e -> html_to_markdown soup = Raise e.
Proof. intros H. unfold html_to_markdown. by rewrite H. Qed.

(** The order of the locator: what it returns is the first "article",
    else the first "main", else the first "div" with id "content", else
    the first "body"; it raises when there is none of them. *)
Lemma locator_order (soup : PageElement) :
  (forall c,
     extract_main_content soup = Return c
     <-> first_in_document (named "article") soup c
         \/ (present (named "article") soup = false
             /\ first_in_document (named "main") soup c)
         \/ (present (named "article") soup = false
             /\ present (named "main") soup = false
             /\ first_in_document div_content soup c)
         \/ (present (named "article") soup = false
             /\ present (named "main") soup = false
             /\ present div_content soup = false
             /\ first_in_document (named "body") soup c))
  /\ (extract_main_content soup = Raise not_found
      <-> present candidate soup = false).
Proof.
  split.
  - intros c.
    rewrite <- find_article_first, <- find_main_first,
      <- find_div_content_first, <- find_body_first,
      <- find_article_absent, <- find_main_absent, <- find_div_content_absent.
    rewrite extract_main_content_cases.
    destruct (find_article soup), (find_main soup), (find_div_content soup),
      (find_body soup); intuition (try congruence; try discriminate).
  - rewrite present_candidate_finds, extract_main_content_cases.
    destruct (find_article soup), (find_main soup), (find_div_content soup),
      (find_body soup); intuition (try congruence; try discriminate).
Qed.

(** C1, as stated, fails in its rule of order: with "an element with
    identifier content" as third candidate, the first candidate that
    exists in <body><section id="content">x</section></body> is the
    section, and the locator returns the body. *)
Lemma C1_counterexample :
  let soup := document [el "body" [section_id_content]] in
  locate_any_tag_third soup = Return section_id_content
  /\ extract_main_content soup = Return (el "body" [section_id_content])
  /\ extract_main_content soup <> locate_any_tag_third soup.
Proof. repeat split. discriminate. Qed.

(** C1, amended: in every document that contains an element named
    "article" the locator returns the first such element in document
    order, whatever "main", "div" with id "content" or "body" elements
    stand beside it, and the conversion renders that element; the four
    candidates (first "article", first "main", first "div" with id
    "content", first "body") are tried in that fixed order and the first
    that exists is returned. *)
Theorem C1_priority_order (soup : PageElement) :
  (present (named "article") soup = true ->
   exists a,
     first_in_document (named "article") soup a
     /\ extract_main_content soup = Return a
     /\ html_to_markdown soup = Return (assemble a))
  /\ (forall c,
        extract_main_content soup = Return c
        <-> first_in_document (named "article") soup c
            \/ (present (named "article") soup = false
                /\ first_in_document (named "main") soup c)
            \/ (present (named "article") soup = false
                /\ present (named "main") soup = false
                /\ first_in_document div_content soup c)
            \/ (present (named "article") soup = false
                /\ present (named "main") soup = false
                /\ present div_content soup = false
                /\ first_in_document (named "body") soup c))
  /\ (forall c,
        extract_main_content soup = Return c ->
        html_to_markdown soup = Return (assemble c)).
Proof.
  split; [|split].
  - intros H. apply present_first in H as [a Ha]. exists a.
    assert (extract_main_content soup = Return a) as E.
    { apply (proj1 (locator_order soup)). by left. }
    auto using html_to_markdown_Return.
  - apply (proj1 (locator_order soup)).
  - apply html_to_markdown_Return.
Qed.

Lemma C1_priority_order_witness :
  (present (named "main") all_four = true
   /\ present div_content all_four = true
   /\ present (named "body") all_four = true
   /\ exists a,
        first_in_document (named "article") all_four a
        /\ extract_main_content all_four = Return a
        /\ html_to_markdown all_four = Return (assemble a))
  /\ extract_main_content
       (document [el "body" [div_id_content [text "d"];
                             el "main" [text "m"]]])
     = Return (el "main" [text "m"]).
Proof.
  split.
  - repeat (split; [reflexivity|]).
    apply (proj1 (C1_priority_order all_four)). reflexivity.
  - apply (proj1 (proj2 (C1_priority_order
                           (document [el "body" [div_id_content [text "d"];
                                                 el "main" [text "m"]]])))).
    right. left. split; [reflexivity|].
    by exists [el "body" [div_id_content [text "d"]; el "main" [text "m"]];
               div_id_content [text "d"]; text "d"], [text "m"].
Defined.

(** C2, as stated, fails: a document whose only candidate is a "span"
    with id "content" has an element with that identifier, and the
    conversion raises. *)
Lemma C2_counterexample :
  let soup := document [Tag "span" {["id" := "content"]} [text "x"]] in
  present candidate_any_tag soup = true
  /\ html_to_markdown soup = Raise not_found.
Proof. split; reflexivity. Qed.

(** C2, amended: the conversion raises the not-found error exactly when
    the tree holds no "article", no "main", no "div" with id "content" and
    no "body"; when one of them is there it returns. *)
Theorem C2_not_found_iff_no_candidate (soup : PageElement) :
  (html_to_markdown soup = Raise not_found <-> present candidate soup = false)
  /\ ((exists md, html_to_markdown soup = Return md)
      <-> present candidate soup = true).
Proof.
  rewrite present_candidate_finds. unfold html_to_markdown.
  rewrite extract_main_content_cases.
  destruct (find_article soup), (find_main soup), (find_div_content soup),
    (find_body soup); simpl;
    (split; split; intros H; try done; try (by eexists); try (by destruct H)).
Qed.

(** C4: when the only container of a document is a "body" without
    children, the conversion returns, and returns a single newline. *)
Theorem C4_empty_body (soup : PageElement) (attrs : gmap string string) :
  present (named "article") soup = false ->
  present (named "main") soup = false ->
  present div_content soup = false ->
  first_in_document (named "body") soup (Tag "body" attrs []) ->
  html_to_markdown soup = Return nl.
Proof.
  intros Ha Hm Hd Hb.
  apply find_article_absent in Ha. apply find_main_absent in Hm.
  apply find_div_content_absent in Hd. apply find_body_first in Hb.
  rewrite (html_to_markdown_Return soup (Tag "body" attrs [])); [done|].
  rewrite extract_main_content_cases. by rewrite Ha, Hm, Hd, Hb.
Qed.

Lemma C4_empty_body_witness :
  html_to_markdown (document [el "body" []]) = Return nl.
Proof.
  apply (C4_empty_body (document [el "body" []]) ∅); try reflexivity.
  by exists [], [].
Defined.




(** C10, as stated, fails: an "article" without children is returned, not
    passed over in favour of the "main" that follows it. *)
Lemma C10_counterexample :
  let soup := document [el "article" []; el "main" [text "x"]] in
  extract_main_content soup = Return (el "article" [])
  /\ locate_skipping_childless soup = Return (el "main" [text "x"])
  /\ extract_main_content soup <> locate_skipping_childless soup.
Proof. repeat split. discriminate. Qed.

(** C10, amended: the locator returns the first of (first "article", first
    "main", first "div" with id "content", first "body") that exists,
    with or without children, and raises when none exists. *)
Theorem C10_first_existing_candidate (soup : PageElement) :
  (forall c,
     extract_main_content soup = Return c
     <-> first_in_document (named "article") soup c
         \/ (present (named "article") soup = false
             /\ first_in_document (named "main") soup c)
         \/ (present (named "article") soup = false
             /\ present (named "main") soup = false
             /\ first_in_document div_content soup c)
         \/ (present (named "article") soup = false
             /\ present (named "main") soup = false
             /\ present div_content soup = false
             /\ first_in_document (named "body") soup c))
  /\ (extract_main_content soup = Raise not_found
      <-> present candidate soup = false).
Proof.
  split.
  - intros c.
    rewrite <- find_article_first, <- find_main_first,
      <- find_div_content_first, <- find_body_first,
      <- find_article_absent, <- find_main_absent, <- find_div_content_absent.
    rewrite extract_main_content_cases.
    destruct (find_article soup), (find_main soup), (find_div_content soup),
      (find_body soup); intuition (try congruence; try discriminate).
  - rewrite present_candidate_finds, extract_main_content_cases.
    destruct (find_article soup), (find_main soup), (find_div_content soup),
      (find_body soup); intuition (try congruence; try discriminate).
Qed.

End Locator.

(** ** Inline renderer *)

Section Inline.

(** Induction over a tree, with the hypothesis for every child. *)
Lemma PageElement_tree_ind (P : PageElement -> Prop) :
  (forall s, P (NavigableString s)) ->
  (forall n attrs cs, Forall P cs -> P (Tag n attrs cs)) ->
  forall e, P e.
Proof.
  intros Hs Ht. fix IH 1. intros [s|n attrs cs]; [apply Hs|].
  apply Ht. induction cs as [|c cs IHcs]; constructor; [apply IH | exact IHcs].
Qed.

(** Walking [descendants] and keeping the strings is the recursive
    collection of the text runs. *)
Lemma texts_strings_below (e : PageElement) :
  texts e = match e with
            | NavigableString s => [s]
            | Tag _ _ _ => strings_below e
            end.
Proof.
  induction e as [s|n attrs cs IH] using PageElement_tree_ind; [done|].
  unfold strings_below.
  change (descendants (Tag n attrs cs))
    with (flat_map (fun c => c :: descendants c) cs).
  change (texts (Tag n attrs cs)) with (flat_map texts cs).
  induction IH as [|c cs Hc _ IHcs]; [done|].
  change (flat_map texts (c :: cs)) with (texts c ++ flat_map texts cs).
  change (flat_map (fun c => c :: descendants c) (c :: cs))
    with ((c :: descendants c)
          ++ flat_map (fun c => c :: descendants c) cs).
  rewrite omap_app, <- IHcs. f_equal.
  destruct c as [s|m a ds]; [reflexivity|]. rewrite Hc. reflexivity.
Qed.

(** [_all_strings(strip=True)]: every text run is stripped on its own and
    the runs left empty are passed over. *)
Lemma all_strings_strip (e : PageElement) :
  all_strings true e
  = List.filter nonempty (List.map strip (strings_below e)).
Proof.
  unfold all_strings, strings_below.
  induction (descendants e) as [|d l IH]; [done|].
  destruct d as [s|n a cs]; [|exact IH].
  cbn [omap list_omap List.map List.filter].
  destruct (nonempty (strip s)); [f_equal|]; exact IH.
Qed.

Lemma all_strings_plain (e : PageElement) :
  all_strings false e = strings_below e.
Proof. reflexivity. Qed.

Lemma inline_anchor (attrs : gmap string string) (contents : list PageElement) :
  inline_to_markdown (Tag "a" attrs contents)
  = let href := strip (get (Tag "a" attrs contents) "href" "") in
    let text := strip (join "" (List.map inline_to_markdown contents)) in
    let text := if nonempty text then text
                else if nonempty href then href else "link" in
    if nonempty href then "[" +:+ text +:+ "](" +:+ href +:+ ")" else text.
Proof. reflexivity. Qed.

Lemma nonempty_true (s : string) : s <> "" -> nonempty s = true.
Proof. by destruct s. Qed.

(** C7: an "a" element renders as "[text](href)" when the stripped href is
    not empty and as the bare text otherwise, where an empty stripped text
    is replaced by the href, or by "link" when the href is empty too. *)
Theorem C7_anchor (attrs : gmap string string) (contents : list PageElement) :
  let node := Tag "a" attrs contents in
  let href := strip (match attrs !! "href" with Some v => v | None => "" end) in
  let text := strip (join "" (List.map inline_to_markdown contents)) in
  (text <> "" -> href <> "" ->
   inline_to_markdown node = "[" +:+ text +:+ "](" +:+ href +:+ ")")
  /\ (text <> "" -> href = "" -> inline_to_markdown node = text)
  /\ (text = "" -> href <> "" ->
      inline_to_markdown node = "[" +:+ href +:+ "](" +:+ href +:+ ")")
  /\ (text = "" -> href = "" -> inline_to_markdown node = "link")
  /\ inline_to_markdown (Tag "a" {["href" := "http://x"]} [NavigableString "  "])
     = "[http://x](http://x)"
  /\ inline_to_markdown (Tag "a" ∅ []) = "link"
  /\ inline_to_markdown (Tag "a" {["href" := " "]} [NavigableString ""]) = "link".
Proof.
  intros node href text. subst node. rewrite inline_anchor.
  change (get (Tag "a" attrs contents) "href" "")
    with (match attrs !! "href" with Some v => v | None => "" end).
  fold href. fold text. cbv zeta.
  repeat split; try reflexivity.
  - intros Ht Hh. by rewrite (nonempty_true _ Ht), (nonempty_true _ Hh).
  - intros Ht Hh. by rewrite (nonempty_true _ Ht), Hh.
  - intros Ht Hh. by rewrite Ht, (nonempty_true _ Hh).
  - intros Ht Hh. by rewrite Ht, Hh.
Qed.

Lemma C7_anchor_witness :
  inline_to_markdown
    (Tag "a" {["href" := " u "]}
       [NavigableString " hi "; Tag "b" ∅ [NavigableString "x"]])
  = "[hi **x**](u)".
Proof.
  refine (proj1 (C7_anchor {["href" := " u "]}
                   [NavigableString " hi "; Tag "b" ∅ [NavigableString "x"]])
                _ _);
    vm_compute; discriminate.
Defined.

(** C9, as stated, fails: the white space between two text runs of a
    "code" element is lost, although it is interior to the flattened
    text. *)
Lemma C9_counterexample :
  let node := el "code" [text "a "; el "b" [text "b"]] in
  "`" +:+ strip (join "" (texts node)) +:+ "`" = "`a b`"
  /\ inline_to_markdown node = "`ab`"
  /\ inline_to_markdown node <> "`" +:+ strip (join "" (texts node)) +:+ "`".
Proof. repeat split. discriminate. Qed.

(** C9, amended: a "code" element renders as a backtick, the text runs
    below it, each stripped of its own surrounding white space and
    dropped when that leaves it empty, joined without separator, and a
    backtick. *)
Theorem C9_code_span (attrs : gmap string string) (contents : list PageElement) :
  inline_to_markdown (Tag "code" attrs contents)
  = "`" +:+ join "" (List.filter nonempty
                       (List.map strip (texts (Tag "code" attrs contents))))
    +:+ "`".
Proof.
  rewrite texts_strings_below, <- all_strings_strip. reflexivity.
Qed.

End Inline.

(** ** Block renderer *)

Section Block.

Lemma list_tag_cases (name : string) :
  mem name list_tags = true -> name = "ul" \/ name = "ol".
Proof.
  unfold mem, list_tags. simpl. rewrite orb_false_r.
  intros [H|H]%orb_true_iff; apply String.eqb_eq in H; auto.
Qed.

(** The list branch of [block_to_markdown]. *)
Lemma block_list (name : string) (attrs : gmap string string)
    (contents : list PageElement) (lvl : nat) :
  mem name list_tags = true ->
  block_to_markdown (Tag name attrs contents) lvl
  = join nl (filter_nonempty
               (item_lines (fun child => block_to_markdown child (S lvl))
                  (repeat "    " lvl) (String.eqb name "ol") 1 contents
                ++ [""])).
Proof. intros [->| ->]%list_tag_cases; reflexivity. Qed.

Lemma bullet_last (is_ordered : bool) (idx : nat) :
  last_char (bullet is_ordered idx) = Some " "%char.
Proof.
  unfold bullet. destruct is_ordered; [|reflexivity].
  by rewrite last_char_app.
Qed.

Lemma bullet_nonempty (is_ordered : bool) (idx : nat) :
  nonempty (bullet is_ordered idx) = true.
Proof.
  unfold bullet. destruct is_ordered; [|reflexivity].
  by apply nonempty_app_r.
Qed.

(** An item line is never empty and never ends in a newline. *)
Lemma item_line_shape (rec : PageElement -> string) (indent : string)
    (is_ordered : bool) (idx : nat) (li_children : list PageElement) :
  nonempty (item_line rec indent is_ordered idx li_children) = true
  /\ ends_with_newline (item_line rec indent is_ordered idx li_children)
     = false.
Proof.
  unfold item_line. split.
  - apply nonempty_app_r.
    pose proof (bullet_nonempty is_ordered idx) as H.
    destruct (bullet is_ordered idx); [done|reflexivity].
  - rewrite <- app_assoc_str.
    apply prefixed_strip_no_newline with (p := " "%char); [|reflexivity].
    rewrite last_char_app. by rewrite bullet_last.
Qed.

Lemma item_lines_tag (rec : PageElement -> string) (indent : string)
    (is_ordered : bool) (idx : nat) (n : string) (attrs : gmap string string)
    (li_children rest : list PageElement) :
  item_lines rec indent is_ordered idx (Tag n attrs li_children :: rest)
  = if mem n ["li"]
    then item_line rec indent is_ordered idx li_children
         :: item_lines rec indent is_ordered (S idx) rest
    else item_lines rec indent is_ordered idx rest.
Proof. reflexivity. Qed.

Lemma item_lines_shape (rec : PageElement -> string) (indent : string)
    (is_ordered : bool) (contents : list PageElement) (idx : nat) :
  Forall (fun l => nonempty l = true /\ ends_with_newline l = false)
    (item_lines rec indent is_ordered idx contents).
Proof.
  revert idx. induction contents as [|c cs IH]; intros idx; [constructor|].
  destruct c as [s|n attrs li_children]; [apply IH|].
  rewrite item_lines_tag. destruct (mem n ["li"]); [|apply IH].
  constructor; [apply item_line_shape | apply IH].
Qed.

(** The empty string appended after the items does not survive
    [filter(None, lines)]. *)
Lemma list_marker_filtered (lines : list string) :
  Forall (fun l => nonempty l = true /\ ends_with_newline l = false) lines ->
  filter_nonempty (lines ++ [""]) = lines.
Proof.
  intros H. rewrite filter_nonempty_app. simpl. rewrite app_nil_r.
  apply filter_nonempty_id. eapply Forall_impl; [exact H|]. by intros l [? _].
Qed.

(** The loop over the items is the enumeration of the direct "li"
    children. *)
Lemma item_lines_find_all (rec : PageElement -> string) (indent : string)
    (is_ordered : bool) (node : PageElement) (idx : nat) :
  item_lines rec indent is_ordered idx (children node)
  = imap (fun i li => item_line rec indent is_ordered (idx + i) (children li))
      (find_all (Strainer ["li"] []) false node).
Proof.
  unfold find_all. generalize (children node) as cs. intros cs. revert idx.
  induction cs as [|c cs IH]; intros idx; [done|].
  destruct c as [s|n attrs li_children]; [apply IH|].
  rewrite item_lines_tag.
  change (List.filter (search_tag (Strainer ["li"] []))
            (Tag n attrs li_children :: cs))
    with (if mem n ["li"] && true
          then Tag n attrs li_children
               :: List.filter (search_tag (Strainer ["li"] [])) cs
          else List.filter (search_tag (Strainer ["li"] [])) cs).
  rewrite andb_true_r. destruct (mem n ["li"]); [|apply IH].
  rewrite imap_cons, Nat.add_0_r. f_equal. rewrite IH. apply imap_ext.
  intros i li _. simpl. f_equal. lia.
Qed.

Lemma strip_no_newline (s : string) : ends_with_newline (strip s) = false.
Proof.
  unfold ends_with_newline.
  destruct (last_char (strip s)) as [c|] eqn:L; [|done].
  apply not_space_not_newline. by eapply strip_last.
Qed.

(** Joining cells with " | " never ends in a newline when no cell does. *)
Lemma join_cells_no_newline (cells : list string) :
  Forall (fun c => ends_with_newline c = false) cells ->
  ends_with_newline (join " | " cells) = false.
Proof.
  induction 1 as [|x rest Hx _ IH]; [done|].
  destruct rest as [|y rest]; [done|].
  rewrite join_cons2. unfold ends_with_newline in *.
  rewrite !last_char_app.
  by destruct (last_char (join " | " (y :: rest))).
Qed.

(** Whatever survives [filter(None, lines)] is not empty, so joining
    lines that do not end in a newline gives a text that does not. *)
Lemma join_filter_no_newline (lines : list string) :
  Forall (fun l => ends_with_newline l = false) lines ->
  ends_with_newline (join nl (filter_nonempty lines)) = false.
Proof.
  intros H. apply join_no_trailing_newline.
  induction H as [|x rest Hx _ IH]; [constructor|].
  unfold filter_nonempty in *. simpl.
  destruct (nonempty x) eqn:E; [constructor|]; done.
Qed.

Lemma table_lines_no_newline (node : PageElement) :
  Forall (fun l => ends_with_newline l = false) (table_lines node).
Proof.
  unfold table_lines.
  set (cell := fun th => strip (inline_to_markdown th)).
  set (row_cells := fun row =>
         List.map cell (find_all (Strainer ["th"; "td"] []) true row)).
  assert (forall row, Forall (fun c => ends_with_newline c = false)
                        (row_cells row)) as Hrow.
  { intros row. unfold row_cells. apply Forall_forall.
    intros c [th [-> _]]%list_elem_of_fmap. apply strip_no_newline. }
  induction (find_all (Strainer ["tr"] []) true node) as [|r rows _];
    [constructor|].
  change (List.map row_cells (r :: rows))
    with (row_cells r :: List.map row_cells rows).
  cbv beta iota.
  repeat apply Forall_cons_2.
  - apply join_cells_no_newline, Hrow.
  - apply join_cells_no_newline, Forall_forall.
    by intros c [x [-> _]]%list_elem_of_fmap.
  - apply Forall_app. split; [|by repeat constructor].
    apply Forall_forall. intros l [cells [-> Hin]]%list_elem_of_fmap.
    apply join_cells_no_newline.
    apply list_elem_of_fmap in Hin as [row [-> _]]. apply Hrow.
Qed.

(** C3: the blank-line marker appended after the items of a list, or
    after the rows of a table, is removed again before the lines are
    joined, so no list or table output ends in a newline, let alone in a
    blank line: "- A" for a one-item list, three lines without a final
    newline for the two-row table; paragraphs and headings do end in one
    newline. *)
Theorem C3_list_marker_dropped :
  (forall name attrs contents lvl,
     mem name list_tags = true ->
     ends_with_newline (block_to_markdown (Tag name attrs contents) lvl)
     = false)
  /\ (forall attrs contents lvl,
        ends_with_newline (block_to_markdown (Tag "table" attrs contents) lvl)
        = false)
  /\ block_to_markdown ul_A 0 = "- A"
  /\ block_to_markdown table_AB 0
     = "A | B" +:+ nl +:+ "--- | ---" +:+ nl +:+ "1 | 2"
  /\ block_to_markdown p_B 0 = "B" +:+ nl
  /\ block_to_markdown (el "h2" [text "T"]) 0 = "## T" +:+ nl.
Proof.
  split; [|split; [|repeat split]].
  - intros name attrs contents lvl H. rewrite block_list by done.
    rewrite list_marker_filtered by apply item_lines_shape.
    apply join_no_trailing_newline, item_lines_shape.
  - intros attrs contents lvl.
    change (block_to_markdown (Tag "table" attrs contents) lvl)
      with (join nl (filter_nonempty
                       (table_lines (Tag "table" attrs contents)))).
    apply join_filter_no_newline, table_lines_no_newline.
Qed.

Lemma C3_list_marker_dropped_witness :
  ends_with_newline
    (block_to_markdown (el "ol" [el "li" [text "A"]; el "li" [text "B"]]) 2)
  = false.
Proof.
  apply (proj1 C3_list_marker_dropped "ol" ∅
           [el "li" [text "A"]; el "li" [text "B"]] 2).
  reflexivity.
Defined.

(** C5: a list followed by a paragraph, inside a generic container or at
    the top level of the document, is joined to it by one newline only:
    no blank line separates "- A" from "B".  Entries that end in a
    newline, such as two paragraphs, do get the blank line. *)
Theorem C5_no_blank_line_after_list :
  block_to_markdown (el "div" [ul_A; p_B]) 0 = "- A" +:+ nl +:+ "B" +:+ nl
  /\ html_to_markdown (document [el "body" [ul_A; p_B]])
     = Return ("- A" +:+ nl +:+ "B" +:+ nl)
  /\ block_to_markdown (el "div" [el "p" [text "A"]; el "div" []; p_B]) 0
     = "A" +:+ nl +:+ nl +:+ "B" +:+ nl
  /\ html_to_markdown (document [el "body" [el "p" [text "A"]; el "div" []; p_B]])
     = Return ("A" +:+ nl +:+ nl +:+ "B" +:+ nl).
Proof. repeat split. Qed.

(** A list of one item that holds one text run. *)
Lemma block_single_item (lvl : nat) (attrs attrs' : gmap string string)
    (s : string) :
  block_to_markdown (Tag "ul" attrs [Tag "li" attrs' [NavigableString s]]) lvl
  = repeat "    " lvl +:+ "- " +:+ strip s.
Proof.
  rewrite block_list by reflexivity.
  rewrite list_marker_filtered by apply item_lines_shape.
  reflexivity.
Qed.

Lemma nested_AB_at (lvl : nat) :
  block_to_markdown nested_AB lvl
  = repeat "    " lvl +:+ "- A" +:+ nl +:+ repeat "    " (S lvl) +:+ "- B".
Proof.
  unfold nested_AB, el, text.
  rewrite block_list by reflexivity.
  rewrite list_marker_filtered by apply item_lines_shape.
  set (inner := block_to_markdown
                  (Tag "ul" ∅ [Tag "li" ∅ [NavigableString "B"]]) (S lvl)).
  change (repeat "    " lvl +:+ "- "
          +:+ strip (join "" ("A" :: (if nonempty inner
                                      then [nl +:+ inner] else []) ++ []))
          = repeat "    " lvl +:+ "- A" +:+ nl
            +:+ repeat "    " (S lvl) +:+ "- B").
  subst inner. rewrite block_single_item.
  change (strip "B") with "B".
  rewrite (nonempty_app_r (repeat "    " (S lvl)) ("- " +:+ "B"))
    by reflexivity.
  set (Z := nl +:+ repeat "    " (S lvl) +:+ "- B").
  change (repeat "    " lvl +:+ "- " +:+ rstrip ("A" +:+ Z)
          = repeat "    " lvl +:+ "- " +:+ "A" +:+ Z).
  rewrite (rstrip_id ("A" +:+ Z) "B"%char); [reflexivity| |reflexivity].
  subst Z. by rewrite !last_char_app.
Qed.

End Block.

(** ** Further properties: strings *)

Section MoreStringFacts.

Lemma join_empty_cons (x : string) (l : list string) :
  join "" (x :: l) = x +:+ join "" l.
Proof.
  destruct l as [|y l]; [by rewrite str_app_nil_r | reflexivity].
Qed.

Lemma join_empty_app (l k : list string) :
  join "" (l ++ k) = join "" l +:+ join "" k.
Proof.
  induction l as [|x l IH]; [reflexivity|].
  change ((x :: l) ++ k) with (x :: (l ++ k)).
  by rewrite !join_empty_cons, IH, app_assoc_str.
Qed.

Lemma lstrip_first (s : string) (c : ascii) :
  first_char (lstrip s) = Some c -> isspace c = false.
Proof.
  induction s as [|x s IH]; [done|]. simpl.
  destruct (isspace x) eqn:Hx; [exact IH|]. simpl. congruence.
Qed.

Lemma rstrip_first (s : string) (c : ascii) :
  first_char (rstrip s) = Some c -> first_char s = Some c.
Proof.
  destruct s as [|x s]; [done|]. simpl.
  destruct (rstrip s); [by destruct (isspace x)|done].
Qed.

Lemma strip_first (s : string) (c : ascii) :
  first_char (strip s) = Some c -> isspace c = false.
Proof. intros H. apply rstrip_first in H. by eapply lstrip_first. Qed.

Lemma rstrip_all_space (s : string) : all_space s = true -> rstrip s = "".
Proof.
  induction s as [|x s IH]; [done|]. simpl.
  intros [Hx Hs]%andb_true_iff. by rewrite IH, Hx.
Qed.

Lemma lstrip_all_space (s : string) : all_space s = true -> lstrip s = "".
Proof.
  induction s as [|x s IH]; [done|]. simpl.
  intros [Hx Hs]%andb_true_iff. rewrite Hx. by apply IH.
Qed.

Lemma strip_all_space (s : string) : all_space s = true -> strip s = "".
Proof. intros H. unfold strip. by rewrite lstrip_all_space. Qed.

Lemma all_space_app (a b : string) :
  all_space (a +:+ b) = all_space a && all_space b.
Proof.
  induction a as [|x a IH]; [reflexivity|].
  rewrite str_app_cons. simpl. by rewrite IH, andb_assoc.
Qed.

Lemma all_space_join_nl (l : list string) :
  forallb all_space l = true -> all_space (join nl l) = true.
Proof.
  induction l as [|x l IH]; [done|]. simpl forallb.
  intros [Hx Hl]%andb_true_iff. destruct l as [|y l]; [done|].
  rewrite join_cons2, !all_space_app, Hx, IH by done. reflexivity.
Qed.

(** Joining one line, after [filter(None, lines)], gives the line back. *)
Lemma join_filter_single (x : string) : join nl (filter_nonempty [x]) = x.
Proof. by destruct x. Qed.

End MoreStringFacts.

(** ** Further properties: inline renderer *)

Section MoreInline.

Lemma inline_unfold (n : string) (attrs : gmap string string)
    (contents : list PageElement) :
  inline_to_markdown (Tag n attrs contents)
  = let inner := join "" (List.map inline_to_markdown contents) in
    if String.eqb n "strong" || String.eqb n "b" then "**" +:+ inner +:+ "**"
    else if String.eqb n "em" || String.eqb n "i" then "*" +:+ inner +:+ "*"
    else if String.eqb n "code" then
      "`" +:+ get_text "" true (Tag n attrs contents) +:+ "`"
    else if String.eqb n "a" then
      let href := strip (get (Tag n attrs contents) "href" "") in
      let text := strip inner in
      let text := if nonempty text then text
                  else if nonempty href then href else "link" in
      if nonempty href then "[" +:+ text +:+ "](" +:+ href +:+ ")" else text
    else if String.eqb n "br" then nl
    else inner.
Proof. reflexivity. Qed.

Lemma inline_generic (n : string) (attrs : gmap string string)
    (contents : list PageElement) :
  mem n inline_markup = false ->
  inline_to_markdown (Tag n attrs contents)
  = join "" (List.map inline_to_markdown contents).
Proof.
  intros H. unfold mem, inline_markup in H. simpl in H.
  rewrite orb_false_r in H. repeat (apply orb_false_iff in H as [? H]).
  rewrite inline_unfold.
  repeat match goal with E : String.eqb n _ = false |- _ =>
    rewrite E; clear E end.
  reflexivity.
Qed.

Lemma plain_inline (e : PageElement) :
  plain e = true -> inline_to_markdown e = join "" (texts e).
Proof.
  induction e as [s|n attrs cs IH] using PageElement_tree_ind; [done|].
  simpl plain. intros [Hn Hcs]%andb_true_iff.
  apply negb_true_iff in Hn. rewrite inline_generic by done.
  change (texts (Tag n attrs cs)) with (flat_map texts cs).
  induction IH as [|c cs Hc _ IHcs]; [done|].
  simpl in Hcs. apply andb_true_iff in Hcs as [Hpc Hpcs].
  change (List.map inline_to_markdown (c :: cs))
    with (inline_to_markdown c :: List.map inline_to_markdown cs).
  change (flat_map texts (c :: cs)) with (texts c ++ flat_map texts cs).
  by rewrite join_empty_cons, join_empty_app, Hc, IHcs.
Qed.

(** X1: below tags that have no inline syntax of their own, the inline
    renderer returns the text runs of the subtree, concatenated in document
    order, unchanged. *)
Theorem X1_plain_inline_is_text (e : PageElement) :
  plain e = true -> inline_to_markdown e = join "" (texts e).
Proof. apply plain_inline. Qed.

Lemma X1_plain_inline_is_text_witness :
  inline_to_markdown
    (el "span" [text "a *b* "; el "u" [text "[c]"]; text " d"])
  = "a *b* [c] d".
Proof.
  apply (X1_plain_inline_is_text
           (el "span" [text "a *b* "; el "u" [text "[c]"]; text " d"])).
  reflexivity.
Defined.

End MoreInline.

(** ** Further properties: block renderer *)

Section MoreBlock.

Lemma block_unfold (n : string) (attrs : gmap string string)
    (contents : list PageElement) (lvl : nat) :
  block_to_markdown (Tag n attrs contents) lvl
  = join nl
      (filter_nonempty
         (if mem n headings then
            [repeat "#" (int_of_digit (second n)) +:+ " "
             +:+ strip (inline_to_markdown (Tag n attrs contents)) +:+ nl]
          else if String.eqb n "p" then
            if nonempty (strip (inline_to_markdown (Tag n attrs contents)))
            then [strip (inline_to_markdown (Tag n attrs contents)) +:+ nl]
            else []
          else if mem n list_tags then
            item_lines (fun child => block_to_markdown child (S lvl))
              (repeat "    " lvl) (String.eqb n "ol") 1 contents ++ [""]
          else if String.eqb n "table" then table_lines (Tag n attrs contents)
          else if String.eqb n "pre" then
            if nonempty (rstrip (get_text nl false (Tag n attrs contents)))
            then ["```" +:+ nl
                  +:+ rstrip (get_text nl false (Tag n attrs contents))
                  +:+ nl +:+ "```" +:+ nl]
            else []
          else flat_map (container_part lvl) contents)).
Proof. reflexivity. Qed.

Lemma block_generic (n : string) (attrs : gmap string string)
    (contents : list PageElement) (lvl : nat) :
  generic n = true ->
  block_to_markdown (Tag n attrs contents) lvl
  = join nl (filter_nonempty (flat_map (container_part lvl) contents)).
Proof.
  unfold generic. intros H.
  repeat (apply andb_true_iff in H as [H ?]).
  repeat match goal with E : negb _ = true |- _ =>
    apply negb_true_iff in E end.
  rewrite block_unfold.
  repeat match goal with E : _ = false |- _ => rewrite E; clear E end.
  reflexivity.
Qed.

(** The lines of a list, one per direct "li" child. *)
Lemma block_list_lines (name : string) (attrs : gmap string string)
    (contents : list PageElement) (lvl : nat) :
  mem name list_tags = true ->
  block_to_markdown (Tag name attrs contents) lvl
  = join nl (imap (fun i li =>
                     list_item_line lvl (String.eqb name "ol") (S i) li)
               (List.filter (named "li") contents)).
Proof.
  intros H. rewrite block_list by done.
  rewrite list_marker_filtered by apply item_lines_shape.
  change contents with (children (Tag name attrs contents)) at 1.
  rewrite item_lines_find_all. unfold find_all.
  rewrite (filter_ext_bool _ (named "li") _ (search_tag_named "li")).
  reflexivity.
Qed.

Lemma filter_idem {A} (p : A -> bool) (l : list A) :
  List.filter p (List.filter p l) = List.filter p l.
Proof.
  induction l as [|x l IH]; [done|]. simpl.
  destruct (p x) eqn:E; [|exact IH]. simpl. by rewrite E, IH.
Qed.

(** X2: a "ul" or "ol" renders one line per direct "li" child, in order:
    four blanks per level, then "- " or the item's rank among the "li"
    children counted from 1 followed by ". ", then the stripped content of
    the item; the lines are joined by single newlines and nothing follows
    the last one. *)
Theorem X2_list_lines (name : string) (attrs : gmap string string)
    (contents : list PageElement) (lvl : nat) :
  mem name list_tags = true ->
  block_to_markdown (Tag name attrs contents) lvl
  = join nl
      (imap (fun i li =>
               repeat "    " lvl
               +:+ (if String.eqb name "ol" then of_nat (i + 1) +:+ ". "
                    else "- ")
               +:+ strip (join ""
                            (flat_map
                               (content_part
                                  (fun child =>
                                     block_to_markdown child (S lvl)))
                               (children li))))
         (List.filter (named "li") contents)).
Proof.
  intros H. rewrite block_list_lines by done. f_equal.
  apply imap_ext. intros i li _. unfold list_item_line, bullet.
  by rewrite Nat.add_1_r.
Qed.

Lemma X2_list_lines_witness :
  block_to_markdown
    (el "ol" [text " "; el "li" [text "A"]; el "p" [text "no"];
              el "li" [text "B"]]) 1
  = "    1. A" +:+ nl +:+ "    2. B".
Proof.
  apply (X2_list_lines "ol" ∅
           [text " "; el "li" [text "A"]; el "p" [text "no"];
            el "li" [text "B"]] 1).
  reflexivity.
Defined.

(** X3: the children of a list that are not "li" tags (text, other
    elements) leave no trace in its rendering and do not count in the
    numbering; a list without any "li" child renders as the empty
    string. *)
Theorem X3_non_items_ignored (name : string) (attrs : gmap string string)
    (contents : list PageElement) (lvl : nat) :
  mem name list_tags = true ->
  block_to_markdown (Tag name attrs contents) lvl
  = block_to_markdown
      (Tag name attrs (List.filter (named "li") contents)) lvl
  /\ (List.filter (named "li") contents = [] ->
      block_to_markdown (Tag name attrs contents) lvl = "").
Proof.
  intros H. rewrite !block_list_lines by done. rewrite filter_idem.
  split; [reflexivity|]. by intros ->.
Qed.

Lemma X3_non_items_ignored_witness :
  block_to_markdown (el "ul" [text "lost"; el "p" [text "lost too"]]) 0 = "".
Proof.
  apply (X3_non_items_ignored "ul" ∅
           [text "lost"; el "p" [text "lost too"]] 0); reflexivity.
Defined.

Lemma lstrip_indent (n : nat) (s : string) :
  lstrip (repeat "    " n +:+ s) = lstrip s.
Proof. induction n as [|n IH]; [reflexivity|exact IH]. Qed.

(** X4: when a list item holds nothing but a nested list, the newline and
    the indentation that should set the nested list below the item are
    stripped away: the first nested line follows the bullet of the item
    directly.  For a nested list of one text item the line reads
    "- - text". *)
Theorem X4_item_opening_with_list (name inner : string)
    (attrs attrs' attrs'' : gmap string string)
    (contents : list PageElement) (lvl : nat) :
  mem name list_tags = true ->
  mem inner list_tags = true ->
  block_to_markdown
    (Tag name attrs [Tag "li" attrs' [Tag inner attrs'' contents]]) lvl
  = repeat "    " lvl +:+ bullet (String.eqb name "ol") 1
    +:+ strip (block_to_markdown (Tag inner attrs'' contents) (S lvl))
  /\ forall s b,
       contents = [Tag "li" b [NavigableString s]] -> inner = "ul" ->
       strip s <> "" ->
       block_to_markdown
         (Tag name attrs [Tag "li" attrs' [Tag inner attrs'' contents]]) lvl
       = repeat "    " lvl +:+ bullet (String.eqb name "ol") 1
         +:+ "- " +:+ strip s.
Proof.
  intros Hn Hi.
  assert (block_to_markdown
            (Tag name attrs [Tag "li" attrs' [Tag inner attrs'' contents]]) lvl
          = repeat "    " lvl +:+ bullet (String.eqb name "ol") 1
            +:+ strip (block_to_markdown (Tag inner attrs'' contents) (S lvl)))
    as E.
  { rewrite block_list_lines by done.
    change (List.filter (named "li")
              [Tag "li" attrs' [Tag inner attrs'' contents]])
      with [Tag "li" attrs' [Tag inner attrs'' contents]].
    unfold imap, list_item_line, children, flat_map, content_part.
    rewrite Hi.
    destruct (block_to_markdown (Tag inner attrs'' contents) (S lvl))
      as [|c N] eqn:EN; reflexivity. }
  split; [exact E|].
  intros s b -> -> Hs. rewrite E, block_single_item.
  do 2 f_equal. unfold strip at 1. rewrite lstrip_indent.
  change (lstrip ("- " +:+ strip s)) with ("- " +:+ strip s).
  destruct (last_char (strip s)) as [c|] eqn:L.
  - apply (rstrip_id _ c); [by rewrite last_char_app, L|].
    by eapply strip_last.
  - by apply last_char_None in L.
Qed.

Lemma X4_item_opening_with_list_witness :
  block_to_markdown (el "ul" [el "li" [el "ul" [el "li" [text "B"]]]]) 0
  = "- - B".
Proof.
  refine (proj2 (X4_item_opening_with_list "ul" "ul" ∅ ∅ ∅
                   [el "li" [text "B"]] 0 _ _) "B" ∅ _ _ _);
    try reflexivity.
  vm_compute. discriminate.
Defined.

Lemma nonempty_line (indent t : string) :
  nonempty (indent +:+ t +:+ nl) = true.
Proof. apply nonempty_app_r. by apply nonempty_app_r. Qed.

(** X5: an element that is not a heading, "p", "ul", "ol", "table" or
    "pre" is rendered as a container even when its name is an inline one
    ("strong", "em", "code", "a"): with a single text child it gives the
    stripped text on an indented line of its own, without emphasis marks,
    backticks or link target, and nothing when the text is blank. *)
Theorem X5_inline_tag_as_block (n : string) (attrs : gmap string string)
    (s : string) (lvl : nat) :
  generic n = true ->
  block_to_markdown (Tag n attrs [NavigableString s]) lvl
  = if nonempty (strip s) then repeat "    " lvl +:+ strip s +:+ nl else "".
Proof.
  intros H. rewrite block_generic by done.
  unfold flat_map, container_part.
  destruct (nonempty (strip s)); [|reflexivity].
  rewrite List.app_nil_r. apply join_filter_single.
Qed.

Lemma X5_inline_tag_as_block_witness :
  block_to_markdown (Tag "a" {["href" := "http://x"]} [text " here "]) 0
  = "here" +:+ nl.
Proof.
  apply (X5_inline_tag_as_block "a" {["href" := "http://x"]} " here " 0).
  reflexivity.
Defined.

Lemma container_part_blank (lvl : nat) (c : PageElement) :
  blank_text c = true -> container_part lvl c = [].
Proof.
  destruct c as [s|n a cs]; [|done]. simpl.
  intros H%negb_true_iff. by rewrite H.
Qed.

(** X6: in a generic container the text children that are blank once
    stripped contribute nothing, and a container around a single element
    is transparent: it renders exactly as that element does at the same
    level. *)
Theorem X6_container_transparent (n : string) (attrs : gmap string string)
    (lvl : nat) :
  generic n = true ->
  (forall contents,
     block_to_markdown (Tag n attrs contents) lvl
     = block_to_markdown
         (Tag n attrs (List.filter (fun c => negb (blank_text c)) contents))
         lvl)
  /\ (forall m attrs' contents,
        block_to_markdown (Tag n attrs [Tag m attrs' contents]) lvl
        = block_to_markdown (Tag m attrs' contents) lvl).
Proof.
  intros H. split.
  - intros contents. rewrite !block_generic by done. do 2 f_equal.
    induction contents as [|c cs IH]; [done|].
    change (flat_map (container_part lvl) (c :: cs))
      with (container_part lvl c ++ flat_map (container_part lvl) cs).
    simpl List.filter. destruct (blank_text c) eqn:E; simpl negb; cbv iota.
    + by rewrite container_part_blank.
    + change (flat_map (container_part lvl) (c :: ?l))
        with (container_part lvl c ++ flat_map (container_part lvl) l).
      by rewrite IH.
  - intros m attrs' contents. rewrite block_generic by done.
    apply join_filter_single.
Qed.

Lemma X6_container_transparent_witness :
  block_to_markdown (el "div" [el "section" [el "div" [p_B]]]) 0
  = block_to_markdown (el "section" [el "div" [p_B]]) 0.
Proof.
  apply (proj2 (X6_container_transparent "div" ∅ 0 eq_refl)).
Defined.

Lemma block_pre (attrs : gmap string string) (contents : list PageElement)
    (lvl : nat) :
  block_to_markdown (Tag "pre" attrs contents) lvl
  = join nl
      (filter_nonempty
         (if nonempty (rstrip (join nl (texts (Tag "pre" attrs contents))))
          then ["```" +:+ nl
                +:+ rstrip (join nl (texts (Tag "pre" attrs contents)))
                +:+ nl +:+ "```" +:+ nl]
          else [])).
Proof. rewrite texts_strings_below. reflexivity. Qed.

(** X7: a "pre" element renders the text runs below it, joined by
    newlines and stripped on the right, between two fence lines; the tags
    inside it only separate the runs.  When every run is white space the
    element renders as the empty string. *)
Theorem X7_pre_block (attrs : gmap string string)
    (contents : list PageElement) (lvl : nat) :
  let code := rstrip (join nl (texts (Tag "pre" attrs contents))) in
  block_to_markdown (Tag "pre" attrs contents) lvl
  = (if nonempty code
     then "```" +:+ nl +:+ code +:+ nl +:+ "```" +:+ nl
     else "")
  /\ (forallb all_space (texts (Tag "pre" attrs contents)) = true ->
      block_to_markdown (Tag "pre" attrs contents) lvl = "").
Proof.
  intros code. rewrite block_pre. fold code. split.
  - destruct (nonempty code); [|reflexivity]. apply join_filter_single.
  - intros H. subst code.
    by rewrite (rstrip_all_space _ (all_space_join_nl _ H)).
Qed.

Lemma X7_pre_block_witness :
  block_to_markdown (el "pre" [text "  "; el "b" [text " "]]) 0 = "".
Proof.
  apply (proj2 (X7_pre_block ∅ [text "  "; el "b" [text " "]] 0)).
  reflexivity.
Defined.

Lemma block_paragraph (attrs : gmap string string)
    (contents : list PageElement) (lvl : nat) :
  block_to_markdown (Tag "p" attrs contents) lvl
  = join nl
      (filter_nonempty
         (if nonempty (strip (join "" (List.map inline_to_markdown contents)))
          then [strip (join "" (List.map inline_to_markdown contents)) +:+ nl]
          else [])).
Proof. reflexivity. Qed.

(** X8: a heading "h1" .. "h6" always renders one line, even without
    text: as many "#" as its digit, a blank, the stripped inline rendering
    of its children and one newline, whatever the indent level.  A
    paragraph renders its stripped inline text and one newline, and
    renders as the empty string when that text is empty; in both the text
    neither begins nor ends with white space. *)
Theorem X8_heading_and_paragraph (attrs : gmap string string)
    (contents : list PageElement) (lvl : nat) :
  let t := strip (join "" (List.map inline_to_markdown contents)) in
  (forall k, 1 <= k <= 6 ->
     block_to_markdown (Tag ("h" +:+ of_nat k) attrs contents) lvl
     = repeat "#" k +:+ " " +:+ t +:+ nl)
  /\ block_to_markdown (Tag "p" attrs contents) lvl
     = (if nonempty t then t +:+ nl else "")
  /\ (forall c, first_char t = Some c -> isspace c = false)
  /\ (forall c, last_char t = Some c -> isspace c = false).
Proof.
  intros t. repeat split.
  - intros k [H1 H6].
    destruct k as [|[|[|[|[|[|[|k]]]]]]]; try lia; reflexivity.
  - rewrite block_paragraph. fold t.
    destruct (nonempty t); [|reflexivity]. apply join_filter_single.
  - intros c. apply strip_first.
  - intros c. apply strip_last.
Qed.

Lemma X8_heading_and_paragraph_witness :
  block_to_markdown (Tag ("h" +:+ of_nat 3) ∅ []) 2 = "### " +:+ nl.
Proof.
  apply (proj1 (X8_heading_and_paragraph ∅ [] 2) 3). lia.
Defined.

Lemma join_cells_nonempty (cells : list string) :
  2 <= length cells -> nonempty (join " | " cells) = true.
Proof.
  destruct cells as [|x [|y rest]]; simpl length; try lia. intros _.
  rewrite join_cons2. by apply nonempty_app_r.
Qed.

Lemma separator_replicate (header : list string) :
  List.map (fun _ : string => "---") header
  = replicate (length header) "---".
Proof. induction header as [|x l IH]; [done|]. simpl. by rewrite IH. Qed.

(** X9: a table without any "tr" below it renders as the empty string.
    When every row found below the table has at least two cells, the
    table renders the first row, a separator row with as many "---" cells
    as the first row has cells, and the other rows, every row with its
    cells joined by " | ", the lines joined by single newlines and nothing
    after the last one. *)
Theorem X9_table_lines (attrs : gmap string string)
    (contents : list PageElement) (lvl : nat) :
  let node := Tag "table" attrs contents in
  (find_all (Strainer ["tr"] []) true node = [] ->
   block_to_markdown node lvl = "")
  /\ (forall r rs,
        find_all (Strainer ["tr"] []) true node = r :: rs ->
        Forall (fun row => 2 <= length (row_cells row)) (r :: rs) ->
        block_to_markdown node lvl
        = join nl
            (join " | " (row_cells r)
             :: join " | " (replicate (length (row_cells r)) "---")
             :: List.map (fun row => join " | " (row_cells row)) rs)).
Proof.
  intros node.
  assert (block_to_markdown node lvl
          = join nl (filter_nonempty (table_lines node))) as E by reflexivity.
  split.
  - intros H. rewrite E. unfold table_lines. by rewrite H.
  - intros r rs H Hcells. rewrite E. unfold table_lines. rewrite H.
    change (List.map _ (r :: rs))
      with (row_cells r :: List.map row_cells rs).
    cbv beta iota. rewrite separator_replicate.
    apply Forall_cons in Hcells as [Hr Hrs].
    rewrite List.app_assoc, filter_nonempty_app.
    rewrite filter_nonempty_id.
    + simpl. rewrite List.app_nil_r. by rewrite List.map_map.
    + apply Forall_app. split.
      * repeat constructor; apply join_cells_nonempty; [done|].
        by rewrite length_replicate.
      * rewrite List.map_map. apply Forall_forall.
        intros l [row [-> Hin]]%list_elem_of_fmap.
        apply join_cells_nonempty.
        by apply (proj1 (Forall_forall _ _) Hrs).
Qed.

Lemma X9_table_lines_witness :
  block_to_markdown table_AB 0
  = "A | B" +:+ nl +:+ "--- | ---" +:+ nl +:+ "1 | 2".
Proof.
  refine (proj2 (X9_table_lines ∅
                   [el "tr" [el "th" [text "A"]; el "th" [text "B"]];
                    el "tr" [el "td" [text "1"]; el "td" [text "2"]]] 0)
            (el "tr" [el "th" [text "A"]; el "th" [text "B"]])
            [el "tr" [el "td" [text "1"]; el "td" [text "2"]]] eq_refl _).
  repeat constructor.
Defined.

End MoreBlock.

(** ** Further properties: document assembler and locator *)

Section MoreAssembler.

Lemma extract_main_content_Raise (soup : PageElement) (e : exn) :
  extract_main_content soup = Raise e -> e = not_found.
Proof.
  rewrite extract_main_content_cases.
  destruct (find_article soup), (find_main soup), (find_div_content soup),
    (find_body soup); congruence.
Qed.

(** X10: a conversion that returns gives a text that neither begins nor
    ends with white space, followed by exactly one newline; the only
    error a conversion raises is the not-found error of the locator. *)
Theorem X10_result_shape (soup : PageElement) :
  (forall md,
     html_to_markdown soup = Return md ->
     exists body,
       md = body +:+ nl
       /\ (forall c, first_char body = Some c -> isspace c = false)
       /\ (forall c, last_char body = Some c -> isspace c = false))
  /\ (forall e, html_to_markdown soup = Raise e -> e = not_found).
Proof.
  unfold html_to_markdown. split.
  - intros md H. destruct (extract_main_content soup) as [c|e]; [|done].
    injection H as <-. eexists. split; [reflexivity|]. split; intros ch.
    + apply strip_first.
    + apply strip_last.
  - intros e H. destruct (extract_main_content soup) as [c|e'] eqn:E; [done|].
    injection H as <-. by eapply extract_main_content_Raise.
Qed.

Lemma X10_result_shape_witness :
  exists body,
    "A" +:+ nl +:+ nl +:+ "B" +:+ nl = body +:+ nl
    /\ (forall c, first_char body = Some c -> isspace c = false)
    /\ (forall c, last_char body = Some c -> isspace c = false).
Proof.
  apply (proj1 (X10_result_shape
                  (document [el "body" [el "p" [text "A"]; p_B]]))).
  reflexivity.
Defined.

Lemma top_blocks_tags (n : string) (attrs : gmap string string)
    (contents : list PageElement) :
  top_blocks (Tag n attrs contents)
  = top_blocks (Tag n attrs (List.filter isTag contents)).
Proof.
  unfold top_blocks, children.
  induction contents as [|c cs IH]; [done|].
  destruct c as [s|m a ds]; [exact IH|].
  change (List.filter isTag (Tag m a ds :: cs))
    with (Tag m a ds :: List.filter isTag cs).
  simpl flat_map. by rewrite IH.
Qed.

(** X11: the text nodes that are direct children of the chosen
    container are not rendered: the conversion gives what it gives for
    the container without them, and a container that has no element child
    converts to a single newline, whatever text it holds. *)
Theorem X11_top_level_text_dropped (soup c : PageElement) :
  extract_main_content soup = Return c ->
  html_to_markdown soup
  = Return (assemble (Tag (name c) ∅ (List.filter isTag (children c))))
  /\ (List.filter isTag (children c) = [] ->
      html_to_markdown soup = Return nl).
Proof.
  intros H. rewrite (html_to_markdown_Return _ _ H).
  assert (assemble c
          = assemble (Tag (name c) ∅ (List.filter isTag (children c)))) as E.
  { unfold assemble. do 4 f_equal.
    destruct c as [s|n attrs cs]; [reflexivity|].
    rewrite top_blocks_tags. reflexivity. }
  split; [by rewrite E|]. intros Hnone. rewrite E, Hnone. reflexivity.
Qed.

Lemma X11_top_level_text_dropped_witness :
  html_to_markdown (document [el "body" [text "Hello "; text "world"]])
  = Return nl.
Proof.
  apply (proj2 (X11_top_level_text_dropped
                  (document [el "body" [text "Hello "; text "world"]])
                  (el "body" [text "Hello "; text "world"]) eq_refl)).
  reflexivity.
Defined.

(** The nodes below a node of the tree are below the root as well. *)
Lemma descendants_below (soup c : PageElement) :
  In c (descendants soup) -> incl (descendants c) (descendants soup).
Proof.
  induction soup as [s|n attrs cs IH] using PageElement_tree_ind; [done|].
  change (descendants (Tag n attrs cs))
    with (flat_map (fun x => x :: descendants x) cs).
  intros [x [Hx Hc]]%in_flat_map y Hy. apply in_flat_map. exists x.
  split; [done|]. destruct Hc as [->|Hc]; [by right|]. right.
  apply (proj1 (Forall_forall _ _) IH x); [by apply list_elem_of_In|done|done].
Qed.

Lemma find_singleton (st : SoupStrainer) (c : PageElement) :
  find st (document [c]) = if search_tag st c then Some c else find st c.
Proof.
  unfold find, find_all, document.
  change (descendants (Tag "[document]" ∅ [c]))
    with ((c :: descendants c) ++ []).
  rewrite List.app_nil_r. simpl List.filter. by destruct (search_tag st c).
Qed.

Lemma find_Some_in (st : SoupStrainer) (soup c : PageElement) :
  find st soup = Some c -> In c (descendants soup) /\ search_tag st c = true.
Proof.
  unfold find, find_all.
  intros (pre & post & E & Hc & _)%head_filter_Some. split; [|done].
  rewrite E. apply in_or_app. right. by left.
Qed.

Lemma find_None_below (st : SoupStrainer) (soup c : PageElement) :
  find st soup = None -> In c (descendants soup) ->
  search_tag st c = false /\ find st c = None.
Proof.
  unfold find, find_all. intros H%head_filter_None Hc.
  assert (forall x, In x (descendants soup) -> search_tag st x = false) as Hall.
  { intros x Hx. destruct (search_tag st x) eqn:E; [|done].
    assert (existsb (search_tag st) (descendants soup) = true); [|congruence].
    apply existsb_exists. by exists x. }
  split; [by apply Hall|]. apply head_filter_None.
  destruct (existsb (search_tag st) (descendants c)) eqn:E; [|done].
  apply existsb_exists in E as [x [Hx Hs]].
  rewrite Hall in Hs; [done|]. by apply (descendants_below soup c).
Qed.

(** X12: the conversion depends on the chosen container only.  The
    locator applied to a document made of the container it returned
    returns that container again, and converting that document gives what
    converting the whole document gave. *)
Theorem X12_container_alone (soup c : PageElement) :
  extract_main_content soup = Return c ->
  extract_main_content (document [c]) = Return c
  /\ html_to_markdown (document [c]) = html_to_markdown soup.
Proof.
  intros H.
  assert (extract_main_content (document [c]) = Return c) as E.
  { revert H. rewrite !extract_main_content_cases.
    unfold find_article, find_main, find_div_content, find_body.
    rewrite !find_singleton.
    destruct (find (Strainer ["article"] []) soup) as [a|] eqn:Ea.
    { intros [= ->]. apply find_Some_in in Ea as [_ ->]. done. }
    destruct (find (Strainer ["main"] []) soup) as [m|] eqn:Em.
    { intros [= ->]. apply find_Some_in in Em as [Hin Hm].
      destruct (find_None_below _ _ _ Ea Hin) as [-> ->]. by rewrite Hm. }
    destruct (find (Strainer ["div"] [("id", "content")]) soup)
      as [d|] eqn:Ed.
    { intros [= ->]. apply find_Some_in in Ed as [Hin Hd].
      destruct (find_None_below _ _ _ Ea Hin) as [-> ->].
      destruct (find_None_below _ _ _ Em Hin) as [-> ->]. by rewrite Hd. }
    destruct (find (Strainer ["body"] []) soup) as [b|] eqn:Eb; [|done].
    intros [= ->]. apply find_Some_in in Eb as [Hin Hb].
    destruct (find_None_below _ _ _ Ea Hin) as [-> ->].
    destruct (find_None_below _ _ _ Em Hin) as [-> ->].
    destruct (find_None_below _ _ _ Ed Hin) as [-> ->]. by rewrite Hb. }
  split; [exact E|].
  by rewrite (html_to_markdown_Return _ _ E), (html_to_markdown_Return _ _ H).
Qed.

Lemma X12_container_alone_witness :
  html_to_markdown (document [el "article" [el "p" [text "x"]]])
  = html_to_markdown all_four.
Proof.
  apply (X12_container_alone all_four (el "article" [el "p" [text "x"]])).
  reflexivity.
Defined.

End MoreAssembler.

(** ** Further properties: attributes *)

Section Attributes.

Lemma keep_href_children (n : string) (attrs : gmap string string)
    (cs : list PageElement) :
  exists attrs',
    keep_href (Tag n attrs cs) = Tag n attrs' (List.map keep_href cs)
    /\ (String.eqb n "a" = true -> attrs' !! "href" = attrs !! "href").
Proof.
  eexists. split; [reflexivity|]. intros ->.
  destruct (attrs !! "href") as [v|]; [apply lookup_singleton_eq|done].
Qed.

Lemma texts_keep_href (e : PageElement) : texts (keep_href e) = texts e.
Proof.
  induction e as [s|n attrs cs IH] using PageElement_tree_ind; [done|].
  change (flat_map texts (List.map keep_href cs) = flat_map texts cs).
  induction IH as [|c cs Hc _ IHcs]; [done|]. simpl. by rewrite Hc, IHcs.
Qed.

Lemma get_text_texts (sep : string) (b : bool) (n : string)
    (attrs : gmap string string) (cs : list PageElement) :
  get_text sep b (Tag n attrs cs)
  = join sep (if b
              then List.filter nonempty
                     (List.map strip (texts (Tag n attrs cs)))
              else texts (Tag n attrs cs)).
Proof.
  unfold get_text. rewrite texts_strings_below.
  destruct b; [by rewrite all_strings_strip | reflexivity].
Qed.

Lemma get_text_keep_href (sep : string) (b : bool) (n : string)
    (attrs attrs' : gmap string string) (cs : list PageElement) :
  get_text sep b (Tag n attrs' (List.map keep_href cs))
  = get_text sep b (Tag n attrs cs).
Proof.
  rewrite !get_text_texts.
  change (texts (Tag n attrs' (List.map keep_href cs)))
    with (texts (keep_href (Tag n attrs cs))).
  by rewrite texts_keep_href.
Qed.

Lemma inline_keep_href (e : PageElement) :
  inline_to_markdown (keep_href e) = inline_to_markdown e.
Proof.
  induction e as [s|n attrs cs IH] using PageElement_tree_ind; [done|].
  destruct (keep_href_children n attrs cs) as (attrs' & -> & Hhref).
  rewrite !inline_unfold.
  rewrite (get_text_keep_href "" true n attrs attrs' cs).
  assert (List.map inline_to_markdown (List.map keep_href cs)
          = List.map inline_to_markdown cs) as ->.
  { induction IH as [|c cs Hc _ IHcs]; [done|]. simpl. by rewrite Hc, IHcs. }
  unfold get. destruct (String.eqb n "a") eqn:Ea.
  - by rewrite (Hhref eq_refl).
  - reflexivity.
Qed.

Lemma filter_map_comm {A B} (p : B -> bool) (f : A -> B) (l : list A) :
  List.filter p (List.map f l)
  = List.map f (List.filter (fun x => p (f x)) l).
Proof.
  induction l as [|x l IH]; [done|]. simpl.
  destruct (p (f x)); simpl; by rewrite IH.
Qed.

Lemma descendants_keep_href (e : PageElement) :
  descendants (keep_href e) = List.map keep_href (descendants e).
Proof.
  induction e as [s|n attrs cs IH] using PageElement_tree_ind; [done|].
  change (flat_map (fun c => c :: descendants c) (List.map keep_href cs)
          = List.map keep_href
              (flat_map (fun c => c :: descendants c) cs)).
  induction IH as [|c cs Hc _ IHcs]; [done|].
  simpl. rewrite List.map_app, Hc, IHcs. reflexivity.
Qed.

Lemma children_keep_href (e : PageElement) :
  children (keep_href e) = List.map keep_href (children e).
Proof. by destruct e. Qed.

Lemma search_tag_keep_href (st : SoupStrainer) (e : PageElement) :
  wanted st = [] -> search_tag st (keep_href e) = search_tag st e.
Proof. intros H. destruct e as [s|n attrs cs]; [done|]. simpl. by rewrite H. Qed.

Lemma find_all_keep_href (st : SoupStrainer) (b : bool) (e : PageElement) :
  wanted st = [] ->
  find_all st b (keep_href e) = List.map keep_href (find_all st b e).
Proof.
  intros H. unfold find_all.
  assert ((if b then descendants (keep_href e) else children (keep_href e))
          = List.map keep_href (if b then descendants e else children e))
    as ->.
  { destruct b; [apply descendants_keep_href | apply children_keep_href]. }
  rewrite filter_map_comm. f_equal. apply filter_ext_bool.
  intros x. by apply search_tag_keep_href.
Qed.

Lemma table_lines_keep_href (node : PageElement) :
  table_lines (keep_href node) = table_lines node.
Proof.
  unfold table_lines. rewrite find_all_keep_href by done.
  rewrite List.map_map.
  assert (forall row,
            List.map (fun th => strip (inline_to_markdown th))
              (find_all (Strainer ["th"; "td"] []) true (keep_href row))
            = List.map (fun th => strip (inline_to_markdown th))
                (find_all (Strainer ["th"; "td"] []) true row)) as Hrow.
  { intros row. rewrite find_all_keep_href by done. rewrite List.map_map.
    apply List.map_ext. intros th. by rewrite inline_keep_href. }
  by rewrite (List.map_ext _ _ Hrow).
Qed.

Lemma content_part_keep_href (rec : PageElement -> string)
    (ch : PageElement) :
  rec (keep_href ch) = rec ch ->
  content_part rec (keep_href ch) = content_part rec ch.
Proof.
  intros H. pose proof (inline_keep_href ch) as Hi.
  destruct ch as [s|n attrs cs]; [done|].
  destruct (keep_href_children n attrs cs) as (attrs' & E & _).
  rewrite E in *. unfold content_part. by rewrite H, Hi.
Qed.

Lemma item_lines_keep_href (rec : PageElement -> string) (indent : string)
    (is_ordered : bool) (cs : list PageElement) :
  (forall li ch, In li cs -> In ch (children li) ->
                 rec (keep_href ch) = rec ch) ->
  forall idx,
    item_lines rec indent is_ordered idx (List.map keep_href cs)
    = item_lines rec indent is_ordered idx cs.
Proof.
  induction cs as [|c cs IH]; intros Hrec idx; [done|].
  assert (forall idx,
            item_lines rec indent is_ordered idx (List.map keep_href cs)
            = item_lines rec indent is_ordered idx cs) as IH'.
  { apply IH. intros li ch Hli. apply Hrec. by right. }
  destruct c as [s|n attrs lc]; [apply IH'|].
  change (List.map keep_href (Tag n attrs lc :: cs))
    with (keep_href (Tag n attrs lc) :: List.map keep_href cs).
  destruct (keep_href_children n attrs lc) as (attrs' & -> & _).
  rewrite !item_lines_tag, !IH'.
  destruct (mem n ["li"]); [|reflexivity]. f_equal.
  unfold item_line.
  assert (forall ch, In ch lc -> rec (keep_href ch) = rec ch) as Hlc.
  { intros ch. apply (Hrec (Tag n attrs lc)). by left. }
  assert (flat_map (content_part rec) (List.map keep_href lc)
          = flat_map (content_part rec) lc) as ->; [|reflexivity].
  clear -Hlc. induction lc as [|ch lc IHlc]; [done|]. simpl.
  rewrite content_part_keep_href by (apply Hlc; by left).
  rewrite IHlc; [done|]. intros x Hx. apply Hlc. by right.
Qed.

Lemma depth_child (e c : PageElement) :
  In c (children e) -> depth c < depth e.
Proof.
  destruct e as [s|n attrs cs]; [done|]. simpl. intros H.
  assert (depth c <= list_max (List.map depth cs)); [|lia].
  assert (Forall (fun k => k <= list_max (List.map depth cs))
            (List.map depth cs)) as HF by by apply list_max_le.
  apply (proj1 (List.Forall_forall _ _) HF). by apply in_map.
Qed.

Lemma block_keep_href_depth (n : nat) :
  forall e, depth e <= n ->
  forall lvl, block_to_markdown (keep_href e) lvl = block_to_markdown e lvl.
Proof.
  induction n as [|n IH]; intros e He lvl.
  { destruct e as [s|m attrs cs]; [done|]. simpl in He. lia. }
  destruct e as [s|m attrs cs]; [done|].
  assert (forall c, In c cs -> depth c <= n) as Hcs.
  { intros c Hc. apply (depth_child (Tag m attrs cs)) in Hc. lia. }
  pose proof (inline_keep_href (Tag m attrs cs)) as Hi.
  pose proof (table_lines_keep_href (Tag m attrs cs)) as Ht.
  destruct (keep_href_children m attrs cs) as (attrs' & E & _).
  rewrite E in *. rewrite !block_unfold, Hi, Ht.
  rewrite (get_text_keep_href nl false m attrs attrs' cs).
  rewrite item_lines_keep_href.
  2:{ intros li ch Hli Hch. apply IH.
      apply Hcs in Hli. apply depth_child in Hch. lia. }
  assert (flat_map (container_part lvl) (List.map keep_href cs)
          = flat_map (container_part lvl) cs) as ->; [|reflexivity].
  clear -IH Hcs. induction cs as [|c cs IHcs]; [done|]. simpl.
  rewrite IHcs by (intros x Hx; apply Hcs; by right). f_equal.
  assert (depth c <= n) as Hc by (apply Hcs; by left).
  destruct c as [s|k a ds]; [done|].
  unfold container_part at 2. rewrite <- (IH _ Hc lvl).
  destruct (keep_href_children k a ds) as (a' & -> & _). reflexivity.
Qed.

(** X13: rendering reads no attribute but the "href" of an "a" tag:
    removing every other attribute everywhere in a subtree (class, id,
    style, the href of other tags) changes neither its inline rendering
    nor its block rendering at any level. *)
Theorem X13_attributes_ignored (e : PageElement) :
  inline_to_markdown (keep_href e) = inline_to_markdown e
  /\ forall lvl,
       block_to_markdown (keep_href e) lvl = block_to_markdown e lvl.
Proof.
  split; [apply inline_keep_href|].
  intros lvl. by apply (block_keep_href_depth (depth e)).
Qed.

End Attributes.

(** ** Further properties: the final pass *)

Section FinalPass.

Lemma blank_isspace (c : ascii) : Textwrap.blank c = true -> isspace c = true.
Proof.
  unfold Textwrap.blank.
  intros [H|H]%orb_true_iff; apply Ascii.eqb_eq in H; by subst.
Qed.

Lemma not_space_not_blank (c : ascii) :
  isspace c = false -> Textwrap.blank c = false.
Proof.
  intros H. destruct (Textwrap.blank c) eqn:E; [|done].
  apply blank_isspace in E. congruence.
Qed.

Lemma split_first (c : ascii) (s : string) :
  Ascii.eqb c "010"%char = false ->
  exists l ls, split "010"%char (String c s) = String c l :: ls.
Proof.
  intros H. simpl. rewrite H.
  destruct (split "010"%char s) as [|l ls]; eauto.
Qed.

Lemma foldl_margin_empty (indents : list string) :
  foldl Textwrap.margin_step (Some "") indents = Some "".
Proof. induction indents as [|i l IH]; [done|]. by destruct i. Qed.

(** A text whose first character is not white space has an empty margin:
    [dedent] only empties its blank lines. *)
Lemma dedent_no_margin (txt : string) (c : ascii) :
  first_char txt = Some c -> isspace c = false ->
  Textwrap.dedent txt
  = join nl (Textwrap.clear_blank_line <$> split "010"%char txt).
Proof.
  intros Hc Hs. destruct txt as [|x s]; [done|]. injection Hc as ->.
  destruct (split_first c s (not_space_not_newline c Hs)) as (l & ls & E).
  unfold Textwrap.dedent. rewrite E.
  pose proof (not_space_not_blank c Hs) as Hb.
  assert (Textwrap.clear_blank_line (String c l) = String c l) as E1.
  { unfold Textwrap.clear_blank_line. simpl. by rewrite Hb. }
  assert (Textwrap.leading_blanks (String c l) = Some "") as E2.
  { simpl. by rewrite Hb. }
  rewrite fmap_cons, E1. cbv zeta.
  change (omap Textwrap.leading_blanks
            (String c l :: (Textwrap.clear_blank_line <$> ls)))
    with (match Textwrap.leading_blanks (String c l) with
          | Some y => y :: omap Textwrap.leading_blanks
                             (Textwrap.clear_blank_line <$> ls)
          | None => omap Textwrap.leading_blanks
                      (Textwrap.clear_blank_line <$> ls)
          end).
  rewrite E2.
  change (foldl Textwrap.margin_step None ("" :: ?r))
    with (foldl Textwrap.margin_step (Some "") r).
  by rewrite foldl_margin_empty.
Qed.

Lemma first_char_app (a b : string) (c : ascii) :
  first_char a = Some c -> first_char (a +:+ b) = Some c.
Proof. by destruct a. Qed.

Lemma first_char_join (sep x : string) (rest : list string) (c : ascii) :
  first_char x = Some c -> first_char (join sep (x :: rest)) = Some c.
Proof.
  intros H. destruct rest as [|y rest]; [done|].
  rewrite join_cons2. by apply first_char_app.
Qed.

Lemma heading_cases (name : string) :
  mem name headings = true ->
  name = "h1" \/ name = "h2" \/ name = "h3"
  \/ name = "h4" \/ name = "h5" \/ name = "h6".
Proof.
  unfold mem, headings. simpl. rewrite orb_false_r. intros H.
  repeat (apply orb_true_iff in H as [H|H];
          [apply String.eqb_eq in H; tauto|]).
  apply String.eqb_eq in H. tauto.
Qed.

(** X14: at level 0 the rendering of a heading, a paragraph, a list or a
    "pre" element, when it is not empty, begins with a character that is
    not white space. *)
Theorem X14_block_starts_flush (name : string) (attrs : gmap string string)
    (contents : list PageElement) (c : ascii) :
  mem name headings || String.eqb name "p" || mem name list_tags
  || String.eqb name "pre" = true ->
  first_char (block_to_markdown (Tag name attrs contents) 0) = Some c ->
  isspace c = false.
Proof.
  intros H.
  apply orb_true_iff in H as [H|H];
    [apply orb_true_iff in H as [H|H];
     [apply orb_true_iff in H as [H|H]|]|].
  - apply heading_cases in H.
    destruct H as [->|[->|[->|[->|[->| ->]]]]]; by intros [= <-].
  - apply String.eqb_eq in H as ->. rewrite block_paragraph.
    destruct (nonempty _) eqn:E; [|done]. rewrite join_filter_single.
    destruct (strip _) as [|x t] eqn:Et; [done|]. intros [= <-].
    apply (strip_first (join "" (List.map inline_to_markdown contents))).
    by rewrite Et.
  - rewrite block_list_lines by done.
    destruct (List.filter (named "li") contents) as [|li lis]; [done|].
    rewrite imap_cons.
    destruct (String.eqb name "ol").
    + rewrite (first_char_join _ _ _ "1"%char) by reflexivity.
      by intros [= <-].
    + rewrite (first_char_join _ _ _ "-"%char) by reflexivity.
      by intros [= <-].
  - apply String.eqb_eq in H as ->. rewrite block_pre.
    destruct (nonempty _); [|done]. rewrite join_filter_single.
    by intros [= <-].
Qed.

Lemma X14_block_starts_flush_witness :
  isspace "1"%char = false.
Proof.
  apply (X14_block_starts_flush "ol" ∅ [el "li" [text " A"]] "1"%char);
    reflexivity.
Defined.

(** X15: when the first block collected from the container begins with a
    character that is not white space, the final pass removes no
    indentation from any line: the conversion returns the blocks joined by
    newlines, with the lines made of blanks and tabs only emptied, stripped
    at both ends and followed by one newline.  The indentation of nested
    list lines is kept. *)
Theorem X15_no_margin_removed (soup content : PageElement)
    (b : string) (bs : list string) (c : ascii) :
  extract_main_content soup = Return content ->
  top_blocks content = b :: bs ->
  first_char b = Some c ->
  isspace c = false ->
  html_to_markdown soup
  = Return (strip (join nl (Textwrap.clear_blank_line
                              <$> split "010"%char (join nl (b :: bs))))
            +:+ nl).
Proof.
  intros He Hb Hc Hs. rewrite (html_to_markdown_Return _ _ He).
  unfold assemble. rewrite Hb.
  by rewrite (dedent_no_margin _ c (first_char_join nl b bs c Hc) Hs).
Qed.

Lemma X15_no_margin_removed_witness :
  html_to_markdown (document [el "body" [nested_AB; p_B]])
  = Return ("- A" +:+ nl +:+ "    - B" +:+ nl +:+ "B" +:+ nl).
Proof.
  apply (X15_no_margin_removed (document [el "body" [nested_AB; p_B]])
           (el "body" [nested_AB; p_B])
           ("- A" +:+ nl +:+ "    - B") ["B" +:+ nl] "-"%char);
    reflexivity.
Defined.

End FinalPass.

(** ** Further properties: blocks inside list items *)

Section ItemContent.

Lemma content_part_plain (rec : PageElement -> string) (ch : PageElement) :
  plain ch = true -> named "ul" ch || named "ol" ch = false ->
  join "" (content_part rec ch) = join "" (texts ch).
Proof.
  intros Hp Hl. rewrite <- (plain_inline ch Hp).
  destruct ch as [s|n attrs cs]; [reflexivity|].
  unfold content_part, mem, list_tags. simpl existsb.
  simpl in Hl. rewrite orb_false_r, Hl. reflexivity.
Qed.

(** X16: inside a list item, an element child other than a nested "ul"
    or "ol" is rendered inline, block elements included: when the children
    of the item carry no inline syntax (paragraphs, headings, containers
    and text), the item line is the indentation, the bullet and the
    stripped concatenation of all the text runs below the item. *)
Theorem X16_item_content_flattened (name : string)
    (attrs attrs' : gmap string string) (li_children : list PageElement)
    (lvl : nat) :
  mem name list_tags = true ->
  forallb (fun ch => plain ch && negb (named "ul" ch || named "ol" ch))
    li_children = true ->
  block_to_markdown (Tag name attrs [Tag "li" attrs' li_children]) lvl
  = repeat "    " lvl +:+ bullet (String.eqb name "ol") 1
    +:+ strip (join "" (texts (Tag "li" attrs' li_children))).
Proof.
  intros Hn Hcs. rewrite block_list_lines by done.
  change (List.filter (named "li") [Tag "li" attrs' li_children])
    with [Tag "li" attrs' li_children].
  unfold imap, list_item_line, children, join at 1.
  do 3 f_equal.
  change (texts (Tag "li" attrs' li_children))
    with (flat_map texts li_children).
  induction li_children as [|ch cs IH]; [done|].
  simpl in Hcs. apply andb_true_iff in Hcs as [Hch Hcs].
  apply andb_true_iff in Hch as [Hp Hl]. apply negb_true_iff in Hl.
  change (flat_map ?f (ch :: cs)) with (f ch ++ flat_map f cs).
  rewrite !join_empty_app, IH by done.
  by rewrite (content_part_plain _ ch Hp Hl).
Qed.

Lemma X16_item_content_flattened_witness :
  block_to_markdown
    (el "ul" [el "li" [el "h2" [text "T"]; el "p" [text " x "]]]) 0
  = "- T x".
Proof.
  apply (X16_item_content_flattened "ul" ∅ ∅
           [el "h2" [text "T"]; el "p" [text " x "]] 0); reflexivity.
Defined.

End ItemContent.

(** ** List indentation *)

Section ListIndentation.

Lemma content_part_nested (lvl : nat) (cname : string)
    (attrs : gmap string string) (contents : list PageElement) :
  mem cname list_tags = true ->
  content_part (fun child => block_to_markdown child (S lvl))
    (Tag cname attrs contents)
  = if nonempty (block_to_markdown (Tag cname attrs contents) (S lvl))
    then [nl +:+ block_to_markdown (Tag cname attrs contents) (S lvl)]
    else [].
Proof. intros H. unfold content_part. by rewrite H. Qed.

(** C8: the indentation of a list is four blanks repeated as many times
    as the indent level, put before the line of every item of every "ul"
    and "ol"; a list that is a child of a list item is rendered one level
    deeper and appended after a newline.  The nested example gives "- A"
    and, on the next line, "- B" behind four blanks. *)
Theorem C8_nested_list_indent :
  (forall name attrs contents lvl,
     mem name list_tags = true ->
     block_to_markdown (Tag name attrs contents) lvl
     = join nl
         (imap (fun i li =>
                  repeat "    " lvl
                  +:+ (if String.eqb name "ol" then of_nat (i + 1) +:+ ". "
                       else "- ")
                  +:+ strip (join ""
                               (flat_map
                                  (content_part
                                     (fun child =>
                                        block_to_markdown child (S lvl)))
                                  (children li))))
            (List.filter (named "li") contents)))
  /\ (forall lvl cname attrs contents,
        mem cname list_tags = true ->
        content_part (fun child => block_to_markdown child (S lvl))
          (Tag cname attrs contents)
        = if nonempty (block_to_markdown (Tag cname attrs contents) (S lvl))
          then [nl +:+ block_to_markdown (Tag cname attrs contents) (S lvl)]
          else [])
  /\ block_to_markdown nested_AB 0 = "- A" +:+ nl +:+ "    - B"
  /\ (forall lvl attrs attrs' s,
        block_to_markdown
          (Tag "ul" attrs [Tag "li" attrs' [NavigableString s]]) lvl
        = repeat "    " lvl +:+ "- " +:+ strip s)
  /\ (forall lvl,
        block_to_markdown nested_AB lvl
        = repeat "    " lvl +:+ "- A" +:+ nl
          +:+ repeat "    " (S lvl) +:+ "- B")
  /\ block_to_markdown two_level_list 1
     = "    1. A" +:+ nl +:+ "        - B" +:+ nl +:+ "        - C"
       +:+ nl +:+ "    2. D".
Proof.
  repeat split.
  - intros name attrs contents lvl H.
    rewrite block_list_lines by done. f_equal.
    apply imap_ext. intros i li _. unfold list_item_line, bullet.
    by rewrite Nat.add_1_r.
  - apply content_part_nested.
  - apply block_single_item.
  - apply nested_AB_at.
Qed.

Lemma C8_nested_list_indent_witness :
  block_to_markdown
    (el "ol" [el "li" [text "A"]; el "li" [text "B"]; el "li" [text "C"]]) 2
  = "        1. A" +:+ nl +:+ "        2. B" +:+ nl +:+ "        3. C".
Proof.
  apply (proj1 C8_nested_list_indent "ol" ∅
           [el "li" [text "A"]; el "li" [text "B"]; el "li" [text "C"]] 2).
  reflexivity.
Defined.

End ListIndentation.
